(** * The temp-wallet payment flow of [src/app/page.tsx]

    The repository is one React component, [Home], in two revisions: the
    first watches a fixed amount for a fixed seller, the second adds a setup
    form (seller address, amount) in front of the same flow.  This file
    embeds the second revision; what the first one does differently
    ([generateNewWallet], the constant target and seller of its
    [checkBalance]) is embedded next to it and shown to be an instance.

    - A JavaScript [number] is an IEEE-754 binary64 value: Rocq's primitive
      [float].  [timeLeft] only holds the integers 0..300 and is a [Z].
    - The component state is the record [State], one field per [useState].
    - The two [useEffect] hooks install their interval exactly when
      [tempWallet] is set and [status] is ['waiting']: [timersActive].
    - [checkBalance] is an [async] function: it runs in segments separated
      by its three [await]s.  A started invocation is a [Task] that holds the
      values its closure captured and the [await] it is suspended at.  The
      environment resolves or rejects each [await] in any order: [step].
    - A handler, or a segment of [checkBalance] between two [await]s, runs
      to its end before anything else happens, and the render that follows
      it (with the cleanup and re-run of the effects) belongs to it: several
      [set...] calls of one segment are one change of the state.
    - Calls into [@solana/web3.js] that are awaited are recorded in a call
      log.  [new PublicKey(...)] and [SystemProgram.transfer(...)] are not
      awaited: when one of them throws, the [catch] around it runs in the
      same segment. *)

From Stdlib Require Import ZArith Bool List Ascii String Floats Lia.
From stdpp Require Import base option gmap.
Import ListNotations.

#[local] Set Warnings "-inexact-float".

Local Open Scope string_scope.
Local Open Scope Z_scope.
Local Open Scope list_scope.

(** ** JavaScript numbers *)

Abbreviation number := float.

(** [a >= b] and [a > b] on numbers, as IEEE comparisons: both are false as
    soon as one side is NaN. *)
Definition num_ge (a b : number) : bool := PrimFloat.leb b a.
Definition num_gt (a b : number) : bool := PrimFloat.ltb b a.
Definition num_le (a b : number) : bool := PrimFloat.leb a b.
Definition num_lt (a b : number) : bool := PrimFloat.ltb a b.
Definition num_eq (a b : number) : bool := PrimFloat.eqb a b.
Definition isNaN (a : number) : bool := PrimFloat.is_nan a.

(** What an awaited promise, or a call that may throw, delivers: a value, or
    an [Error] with its [message]. *)
Inductive result (A : Type) : Type :=
  | Resolved (value : A)
  | Rejected (message : string).
Arguments Resolved {A} value.
Arguments Rejected {A} message.

(** ** Constants of the module *)

Definition LAMPORTS_PER_SOL : number := 1000000000%float.
Definition DEFAULT_SELLER_ADDRESS : string :=
  "9RKnB9eWaBxX33spWTLm2333nE5QXgWfaC8BoS5Cj9Pf".
Definition DEFAULT_AMOUNT : string := "0.01".
Definition PAYMENT_WINDOW : Z := 5 * 60.
Definition POLLING_INTERVAL : Z := 5000.
(** The literal [5000] subtracted from the balance in [checkBalance]. *)
Definition FEE_RESERVE : number := 5000%float.
(** The two constants of the first revision. *)
Definition SELLER_ADDRESS : string :=
  "9RKnB9eWaBxX33spWTLm2333nE5QXgWfaC8BoS5Cj9Pf".
Definition REQUIRED_AMOUNT : number := 0.05%float.

(** ** Component state *)

Inductive Status : Type :=
  | setup | waiting | received | forwarding | forwarded | expired.

Definition Status_eqb (a b : Status) : bool :=
  match a, b with
  | setup, setup | waiting, waiting | received, received
  | forwarding, forwarding | forwarded, forwarded | expired, expired => true
  | _, _ => false
  end.

(** A [Keypair] of web3.js: the address and the secret that spends from it. *)
Record Keypair : Type := mkKeypair {
  publicKey : string;
  secretKey : string }.

Record State : Type := mkState {
  tempWallet : option Keypair;
  timeLeft : Z;
  status : Status;
  balance : number;
  txSignature : option string;
  error : option string;
  copied : bool;
  sellerAddress : string;
  addressError : option string;
  amount : string;
  amountError : option string }.

(** The state of the first render: the [useState] initial values. *)
Definition initialState : State :=
  {| tempWallet := None; timeLeft := PAYMENT_WINDOW; status := setup;
     balance := 0%float; txSignature := None; error := None; copied := false;
     sellerAddress := DEFAULT_SELLER_ADDRESS; addressError := None;
     amount := DEFAULT_AMOUNT; amountError := None |}.

(** The state setters. *)
Definition setTempWallet (v : option Keypair) (s : State) : State :=
  mkState v (timeLeft s) (status s) (balance s) (txSignature s) (error s)
    (copied s) (sellerAddress s) (addressError s) (amount s) (amountError s).
Definition setTimeLeft (v : Z) (s : State) : State :=
  mkState (tempWallet s) v (status s) (balance s) (txSignature s) (error s)
    (copied s) (sellerAddress s) (addressError s) (amount s) (amountError s).
Definition setStatus (v : Status) (s : State) : State :=
  mkState (tempWallet s) (timeLeft s) v (balance s) (txSignature s) (error s)
    (copied s) (sellerAddress s) (addressError s) (amount s) (amountError s).
Definition setBalance (v : number) (s : State) : State :=
  mkState (tempWallet s) (timeLeft s) (status s) v (txSignature s) (error s)
    (copied s) (sellerAddress s) (addressError s) (amount s) (amountError s).
Definition setTxSignature (v : option string) (s : State) : State :=
  mkState (tempWallet s) (timeLeft s) (status s) (balance s) v (error s)
    (copied s) (sellerAddress s) (addressError s) (amount s) (amountError s).
Definition setError (v : option string) (s : State) : State :=
  mkState (tempWallet s) (timeLeft s) (status s) (balance s) (txSignature s) v
    (copied s) (sellerAddress s) (addressError s) (amount s) (amountError s).
Definition setSellerAddress (v : string) (s : State) : State :=
  mkState (tempWallet s) (timeLeft s) (status s) (balance s) (txSignature s)
    (error s) (copied s) v (addressError s) (amount s) (amountError s).
Definition setAddressError (v : option string) (s : State) : State :=
  mkState (tempWallet s) (timeLeft s) (status s) (balance s) (txSignature s)
    (error s) (copied s) (sellerAddress s) v (amount s) (amountError s).
Definition setAmount (v : string) (s : State) : State :=
  mkState (tempWallet s) (timeLeft s) (status s) (balance s) (txSignature s)
    (error s) (copied s) (sellerAddress s) (addressError s) v (amountError s).
Definition setAmountError (v : option string) (s : State) : State :=
  mkState (tempWallet s) (timeLeft s) (status s) (balance s) (txSignature s)
    (error s) (copied s) (sellerAddress s) (addressError s) (amount s) v.

(** Both interval effects start with
    [if (!tempWallet || status !== 'waiting') return;] and are re-run when
    either value changes: the countdown and the poll interval exist exactly
    in the states where this holds. *)
Definition timersActive (s : State) : bool :=
  match tempWallet s with
  | Some _ => Status_eqb (status s) waiting
  | None => false
  end.

(** ** Calls into the ledger library *)

Inductive Call : Type :=
  | KeypairGenerate
  | GetBalance (address : string)
  | SendTransaction (fromPubkey toPubkey : string) (lamports : number)
  | ConfirmTransaction (signature : string).

Definition isSendTransaction (c : Call) : bool :=
  match c with SendTransaction _ _ _ => true | _ => false end.

(** ** Asynchronous invocations of [checkBalance] *)

(** What a [checkBalance] closure captured from the render that installed its
    interval.  The poll effect depends on [tempWallet], [sellerAddress] and
    [amount], so these are the values of the state at the tick that starts
    the invocation; [tempWallet] is not null there. *)
Record Closure : Type := mkClosure {
  c_tempWallet : Keypair;
  c_sellerAddress : string;
  c_amount : string }.

(** A started invocation, suspended at one of its three [await]s. *)
Inductive Task : Type :=
  | AwaitGetBalance (c : Closure)
  | AwaitSendTransaction (c : Closure)
  | AwaitConfirmTransaction (c : Closure) (signature : string).

Record World : Type := mkWorld {
  ui : State;
  pending : gmap nat Task;
  nextTask : nat;
  calls : list Call }.

Definition initialWorld : World :=
  {| ui := initialState; pending := ∅; nextTask := 0%nat; calls := [] |}.

Definition withUi (f : State -> State) (w : World) : World :=
  mkWorld (f (ui w)) (pending w) (nextTask w) (calls w).
Definition logCall (c : Call) (w : World) : World :=
  mkWorld (ui w) (pending w) (nextTask w) (calls w ++ [c]).
Definition suspend (id : nat) (t : Task) (w : World) : World :=
  mkWorld (ui w) (<[id := t]> (pending w)) (nextTask w) (calls w).
Definition finish (id : nat) (w : World) : World :=
  mkWorld (ui w) (delete id (pending w)) (nextTask w) (calls w).
Definition spawn (t : Task) (w : World) : World :=
  mkWorld (ui w) (<[nextTask w := t]> (pending w)) (S (nextTask w)) (calls w).

(** What the environment can do to the component. *)
Inductive Event : Type :=
  | ClickStart (generated : Keypair)
  | ClickReset
  | ChangeSellerAddress (value : string)
  | ChangeAmount (trimmed : string)
  | CountdownTick
  | PollTick
  | GetBalanceDone (task : nat) (r : result number)
  | SendTransactionDone (task : nat) (r : result string)
  | ConfirmTransactionDone (task : nat) (r : result unit).

(** ** Instances of the three platform functions

    The flow is defined and its properties are proved for every
    [parseFloat], every [publicKeyError] and every [transferError].  The
    runs that are evaluated at the end use these three. *)

Module Platform.

Definition digitOf (a : Ascii.ascii) : option Z :=
  let n := Z.of_N (Ascii.N_of_ascii a) in
  if (48 <=? n) && (n <=? 57) then Some (n - 48) else None.

Fixpoint readDigits (s : string) (acc : Z) (count : nat) : Z * nat * string :=
  match s with
  | String a s' =>
      match digitOf a with
      | Some d => readDigits s' (10 * acc + d) (S count)
      | None => (acc, count, s)
      end
  | EmptyString => (acc, count, s)
  end.

(** White space and line terminators, as far as they are one byte long. *)
Definition isWhiteSpace (a : Ascii.ascii) : bool :=
  let n := Z.of_N (Ascii.N_of_ascii a) in
  ((9 <=? n) && (n <=? 13)) || (n =? 32).

Fixpoint skipSpaces (s : string) : string :=
  match s with
  | String a s' => if isWhiteSpace a then skipSpaces s' else s
  | EmptyString => s
  end.

Definition readSign (s : string) : bool * string :=
  match s with
  | String "-"%char s' => (true, s')
  | String "+"%char s' => (false, s')
  | _ => (false, s)
  end.

Definition Z2number (z : Z) : number := PrimFloat.of_uint63 (Uint63.of_Z z).

(** The number [m * 10 ^ k], for [0 <= m], rounded to the nearest double,
    ties to even.  For a negative [k] the quotient is computed to more than
    64 bits and what is left of the division is kept in a last bit, so that
    the one rounding sees on which side of a tie the number is. *)
Definition decimal (m k : Z) : number :=
  if 0 <=? k
  then
    FloatOps.SF2Prim
      (SpecFloat.binary_normalize FloatOps.prec FloatOps.emax
         (m * 10 ^ k) 0 false)
  else
    let d := 10 ^ (- k) in
    let s := Z.log2 d + 64 in
    let q := Z.shiftl m s / d in
    let sticky := if Z.shiftl m s mod d =? 0 then 0 else 1 in
    FloatOps.SF2Prim
      (SpecFloat.binary_normalize FloatOps.prec FloatOps.emax
         (2 * q + sticky) (- s - 1) false).

(** The exponent part [e], [e+] or [e-] with its digits; without a digit it
    is not part of the literal. *)
Definition readExponent (s : string) : Z :=
  match s with
  | String a s' =>
      if (Ascii.eqb a "e" || Ascii.eqb a "E")%bool
      then
        let '(negative, s'') := readSign s' in
        let '(e, n, _) := readDigits s'' 0 0 in
        if (n =? 0)%nat then 0 else if negative then - e else e
      else 0
  | EmptyString => 0
  end.

(** [parseFloat]: leading white space is skipped, then the longest prefix
    that is a decimal literal is read: an optional sign, then [Infinity],
    or digits with an optional point and an optional exponent.  The result
    is the double nearest to the number the literal denotes.  What follows
    the literal is ignored, and a string that starts with no literal gives
    NaN. *)
Definition parseFloat (s : string) : number :=
  let '(negative, s) := readSign (skipSpaces s) in
  let v :=
    if String.prefix "Infinity" s then PrimFloat.infinity
    else
      let '(whole, n1, s) := readDigits s 0 0 in
      let '(digits, n2, s) :=
        match s with
        | String "."%char s' => readDigits s' whole 0
        | _ => (whole, 0%nat, s)
        end in
      if (n1 + n2 =? 0)%nat then PrimFloat.nan
      else decimal digits (readExponent s - Z.of_nat n2) in
  if negative then (- v)%float else v.

Definition base58 : string :=
  "123456789ABCDEFGHJKLMNPQRSTUVWXYZabcdefghijkmnopqrstuvwxyz".

Fixpoint indexOf (a : Ascii.ascii) (s : string) (i : Z) : option Z :=
  match s with
  | EmptyString => None
  | String b s' => if Ascii.eqb a b then Some i else indexOf a s' (i + 1)
  end.

(** The number a base-58 string denotes and how many of its leading
    characters are ['1'] (each stands for one zero byte). *)
Fixpoint decode58 (s : string) (leading : bool) (zeros : nat) (acc : Z)
  : option (nat * Z) :=
  match s with
  | EmptyString => Some (zeros, acc)
  | String a s' =>
      match indexOf a base58 0 with
      | None => None
      | Some d =>
          if leading && (d =? 0) then decode58 s' true (S zeros) acc
          else decode58 s' false zeros (58 * acc + d)
      end
  end.

Fixpoint byteLength (fuel : nat) (z : Z) : nat :=
  match fuel with
  | O => O
  | S fuel' => if z <=? 0 then O else S (byteLength fuel' (z / 256))
  end.

(** [new PublicKey(s)] on a string: the string has to be base 58 and to
    decode to 32 bytes. *)
Definition publicKeyError (s : string) : option string :=
  match decode58 s true 0 0 with
  | None => Some "Non-base58 character"
  | Some (zeros, value) =>
      if (zeros + byteLength 64 value =? 32)%nat then None
      else Some "Invalid public key input"
  end.

(** Whether a number is an integer; NaN and the infinities are not. *)
Definition isInteger (n : number) : bool :=
  match FloatOps.Prim2SF n with
  | SpecFloat.S754_zero _ => true
  | SpecFloat.S754_finite _ m e => (0 <=? e) || (Z.pos m mod 2 ^ (- e) =? 0)
  | _ => false
  end.

(** [SystemProgram.transfer({fromPubkey, toPubkey, lamports})] takes
    [BigInt(lamports)], which throws for a number that is not an integer,
    and encodes it as an unsigned 64-bit integer, which throws for a
    negative one and for one above 2^64 - 1; zero is encoded like any other
    amount.  The messages are the library's opening words: the library goes
    on to quote the amount. *)
Definition transferError (fromPubkey toPubkey : string) (lamports : number)
  : option string :=
  if negb (isInteger lamports)
  then Some "The number cannot be converted to a BigInt"
  else if PrimFloat.ltb lamports 0%float ||
          PrimFloat.leb 18446744073709551616%float lamports
  then Some "Codec [u64] expected number to be in the range"
  else None.

End Platform.

(** ** Events of some sessions *)

Module Scenario.

Definition wallet : Keypair :=
  mkKeypair "4Nd1mBQtrMJVYVfKf2PJy9NZUZdTAsp7D4xWLs4gDB4T" "ephemeral secret".

(** 0.01 SOL in lamports. *)
Definition paid : number := 10000000%float.

(** The default form is submitted and the first balance check starts. *)
Definition firstPoll : list Event := [ClickStart wallet; PollTick].

(** The amount is 0.000001 SOL and 1000 lamports arrive. *)
Definition tinyAmount : list Event :=
  [ChangeAmount "0.000001"; ClickStart wallet; PollTick;
   GetBalanceDone 0 (Resolved 1000%float)].

(** The amount is 0.000005 SOL and 5000 lamports arrive: the reserve is all
    there is. *)
Definition reserveOnly : list Event :=
  [ChangeAmount "0.000005"; ClickStart wallet; PollTick;
   GetBalanceDone 0 (Resolved 5000%float)].

(** A second tick fires before the first [getBalance] has settled; both
    then read the payment. *)
Definition overlappingPolls : list Event :=
  [ClickStart wallet; PollTick; PollTick;
   GetBalanceDone 0 (Resolved paid); GetBalanceDone 1 (Resolved paid)].

(** The session runs out of time with no balance read. *)
Definition expiry : list Event :=
  ClickStart wallet :: repeat CountdownTick 300.

(** The last second passes while a [getBalance] is in flight, which then
    reads the payment. *)
Definition expiryDuringPoll : list Event :=
  firstPoll ++ repeat CountdownTick 300 ++ [GetBalanceDone 0 (Resolved paid)].

(** As before, with a second check in flight that settles after the user
    has reset the expired session. *)
Definition resetDuringPoll : list Event :=
  [ClickStart wallet; PollTick] ++ repeat CountdownTick 300 ++
  [ClickReset; GetBalanceDone 0 (Resolved paid)].

(** A balance check fails, the next one reads the payment, and the forward
    goes through. *)
Definition forwardAfterNetworkError : list Event :=
  [ClickStart wallet; PollTick; GetBalanceDone 0 (Rejected "fetch failed");
   PollTick; GetBalanceDone 1 (Resolved paid)].

(** Two checks forward; the first forward fails, the session expires and is
    reset; then the second forward fails. *)
Definition lateFailureAfterReset : list Event :=
  [ClickStart wallet; PollTick; PollTick;
   GetBalanceDone 0 (Resolved paid); GetBalanceDone 1 (Resolved paid);
   SendTransactionDone 0 (Rejected "timed out")] ++
  repeat CountdownTick 300 ++
  [ClickReset; SendTransactionDone 1 (Rejected "timed out")].

Definition forwardCompleted : list Event :=
  forwardAfterNetworkError ++
  [SendTransactionDone 1 (Resolved "5sig"); ConfirmTransactionDone 1 (Resolved tt)].

End Scenario.

Section Flow.

(** Three functions of the platform that the component calls: [parseFloat];
    the constructor [new PublicKey(s)], given by the message of the error it
    throws ([None] when it constructs a key); and
    [SystemProgram.transfer({fromPubkey, toPubkey, lamports})], given in the
    same way ([None] when it builds the instruction). *)
Variable parseFloat : string -> number.
Variable publicKeyError : string -> option string.
Variable transferError : string -> string -> number -> option string.

(** *** Validation and the user's two intents *)

Definition validateAddress (address : string) : bool :=
  match publicKeyError address with
  | None => true
  | Some _ => false
  end.

Definition validateAmount (value : string) : option string :=
  let numValue := parseFloat value in
  if isNaN numValue then Some "Amount must be a valid number"
  else if num_le numValue 0%float then Some "Amount must be greater than 0"
  else if num_gt numValue 100%float
       then Some "Amount must be less than or equal to 100 SOL"
  else None.

(** [generated] is what [Keypair.generate()] returns if it is called.  The
    test [if (amountError)] is a test for null: the three messages of
    [validateAmount] are not empty. *)
Definition startPaymentFlow (generated : Keypair) (w : World) : World :=
  let w := withUi (setAddressError None) w in
  let w := withUi (setAmountError None) w in
  if negb (validateAddress (sellerAddress (ui w))) then
    withUi (setAddressError (Some "Invalid Solana address")) w
  else
    match validateAmount (amount (ui w)) with
    | Some amountError => withUi (setAmountError (Some amountError)) w
    | None =>
        let w := logCall KeypairGenerate w in
        let w := withUi (setTempWallet (Some generated)) w in
        let w := withUi (setTimeLeft PAYMENT_WINDOW) w in
        let w := withUi (setStatus waiting) w in
        let w := withUi (setBalance 0%float) w in
        let w := withUi (setTxSignature None) w in
        withUi (setError None) w
    end.

Definition resetFlow (s : State) : State :=
  let s := setStatus setup s in
  let s := setTempWallet None s in
  let s := setError None s in
  setTxSignature None s.

Definition handleAmountChange (trimmed : string) (s : State) : State :=
  setAmountError None (setAmount trimmed s).

Definition handleSellerAddressChange (value : string) (s : State) : State :=
  setAddressError None (setSellerAddress value s).

(** *** The countdown *)

(** The updater passed to [setTimeLeft] by the one-second interval. *)
Definition countdownTick (s : State) : State :=
  if timeLeft s <=? 1 then setTimeLeft 0 (setStatus expired s)
  else setTimeLeft (timeLeft s - 1) s.

(** *** [checkBalance] *)

(** The inner [catch]. *)
Definition forwardFailed (message : string) (s : State) : State :=
  setStatus waiting
    (setError (Some ("Failed to forward payment: " ++ message)%string) s).

(** The outer [catch]. *)
Definition checkFailed (message : string) (s : State) : State :=
  setError (Some ("Failed to check balance: " ++ message)%string) s.

(** The interval fires: [checkBalance] starts and suspends at
    [await connection.getBalance(tempWallet.publicKey)]. *)
Definition checkBalance_start (w : World) : World :=
  match tempWallet (ui w) with
  | None => w
  | Some wallet =>
      let c := mkClosure wallet (sellerAddress (ui w)) (amount (ui w)) in
      spawn (AwaitGetBalance c) (logCall (GetBalance (publicKey wallet)) w)
  end.

(** [getBalance] settles: from [const balanceInSol] to the [await] of
    [sendTransaction], or to the end of the function.  Inside the inner
    [try] the seller's key is constructed first, then the transfer
    instruction is built, then [sendTransaction] is called. *)
Definition checkBalance_gotBalance
    (id : nat) (c : Closure) (r : result number) (w : World) : World :=
  match r with
  | Rejected message => finish id (withUi (checkFailed message) w)
  | Resolved balance =>
      let balanceInSol := (balance / LAMPORTS_PER_SOL)%float in
      let w := withUi (setBalance balanceInSol) w in
      let requiredAmount := parseFloat (c_amount c) in
      if num_ge balanceInSol requiredAmount then
        let w := withUi (setStatus received) w in
        let w := withUi (setStatus forwarding) w in
        match publicKeyError (c_sellerAddress c) with
        | Some message => finish id (withUi (forwardFailed message) w)
        | None =>
            let lamports := (balance - FEE_RESERVE)%float in
            match transferError (publicKey (c_tempWallet c))
                    (c_sellerAddress c) lamports with
            | Some message => finish id (withUi (forwardFailed message) w)
            | None =>
                let w := logCall (SendTransaction (publicKey (c_tempWallet c))
                                    (c_sellerAddress c) lamports) w in
                suspend id (AwaitSendTransaction c) w
            end
        end
      else finish id w
  end.

(** [sendTransaction] settles. *)
Definition checkBalance_sent
    (id : nat) (c : Closure) (r : result string) (w : World) : World :=
  match r with
  | Rejected message => finish id (withUi (forwardFailed message) w)
  | Resolved signature =>
      suspend id (AwaitConfirmTransaction c signature)
        (logCall (ConfirmTransaction signature) w)
  end.

(** [confirmTransaction] settles. *)
Definition checkBalance_confirmed
    (id : nat) (signature : string) (r : result unit) (w : World) : World :=
  match r with
  | Rejected message => finish id (withUi (forwardFailed message) w)
  | Resolved _ =>
      let w := withUi (setTxSignature (Some signature)) w in
      finish id (withUi (setStatus forwarded) w)
  end.

(** *** One step of the component *)

(** [None] when the event cannot happen in this state: a button that is not
    rendered, an interval that is not installed, a task that is not suspended
    at that [await]. *)
Definition step (w : World) (e : Event) : option World :=
  match e with
  | ClickStart generated =>
      if Status_eqb (status (ui w)) setup
      then Some (startPaymentFlow generated w) else None
  | ClickReset =>
      match status (ui w) with
      | forwarded | expired => Some (withUi resetFlow w)
      | _ => None
      end
  | ChangeSellerAddress value =>
      if Status_eqb (status (ui w)) setup
      then Some (withUi (handleSellerAddressChange value) w) else None
  | ChangeAmount trimmed =>
      if Status_eqb (status (ui w)) setup
      then Some (withUi (handleAmountChange trimmed) w) else None
  | CountdownTick =>
      if timersActive (ui w) then Some (withUi countdownTick w) else None
  | PollTick =>
      if timersActive (ui w) then Some (checkBalance_start w) else None
  | GetBalanceDone id r =>
      match pending w !! id with
      | Some (AwaitGetBalance c) => Some (checkBalance_gotBalance id c r w)
      | _ => None
      end
  | SendTransactionDone id r =>
      match pending w !! id with
      | Some (AwaitSendTransaction c) => Some (checkBalance_sent id c r w)
      | _ => None
      end
  | ConfirmTransactionDone id r =>
      match pending w !! id with
      | Some (AwaitConfirmTransaction c signature) =>
          Some (checkBalance_confirmed id signature r w)
      | _ => None
      end
  end.

(** A run: the events are taken from left to right. *)
Fixpoint run (w : World) (es : list Event) : option World :=
  match es with
  | [] => Some w
  | e :: es' =>
      match step w e with
      | Some w' => run w' es'
      | None => None
      end
  end.

(** ** The first revision *)

(** It has no setup form: [generateNewWallet] runs when the component
    mounts and behind the button of the final view. *)
Definition generateNewWallet (generated : Keypair) (w : World) : World :=
  let w := logCall KeypairGenerate w in
  let w := withUi (setTempWallet (Some generated)) w in
  let w := withUi (setTimeLeft PAYMENT_WINDOW) w in
  let w := withUi (setStatus waiting) w in
  let w := withUi (setBalance 0%float) w in
  let w := withUi (setTxSignature None) w in
  withUi (setError None) w.

(** Its [checkBalance], from [const balanceInSol] on: the target is
    [REQUIRED_AMOUNT] and the destination [SELLER_ADDRESS].  The rest of
    the function is the same text in both revisions and is shared; the
    closure kept for it records the two constants. *)
Definition checkBalance_gotBalance_fixed
    (id : nat) (tempWallet : Keypair) (r : result number) (w : World)
  : World :=
  match r with
  | Rejected message => finish id (withUi (checkFailed message) w)
  | Resolved balance =>
      let balanceInSol := (balance / LAMPORTS_PER_SOL)%float in
      let w := withUi (setBalance balanceInSol) w in
      if num_ge balanceInSol REQUIRED_AMOUNT then
        let w := withUi (setStatus received) w in
        let w := withUi (setStatus forwarding) w in
        match publicKeyError SELLER_ADDRESS with
        | Some message => finish id (withUi (forwardFailed message) w)
        | None =>
            let lamports := (balance - FEE_RESERVE)%float in
            match transferError (publicKey tempWallet) SELLER_ADDRESS
                    lamports with
            | Some message => finish id (withUi (forwardFailed message) w)
            | None =>
                let w := logCall (SendTransaction (publicKey tempWallet)
                                    SELLER_ADDRESS lamports) w in
                suspend id
                  (AwaitSendTransaction
                     (mkClosure tempWallet SELLER_ADDRESS "0.05"))
                  w
            end
        end
      else finish id w
  end.

(** ** Worlds the component can be in *)

Definition taskClosure (t : Task) : Closure :=
  match t with
  | AwaitGetBalance c | AwaitSendTransaction c
  | AwaitConfirmTransaction c _ => c
  end.

(** The worlds reached from the first render. *)
Inductive reachable : World -> Prop :=
  | reachable_init : reachable initialWorld
  | reachable_step w e w' :
      reachable w -> step w e = Some w' -> reachable w'.

(** Inputs that passed the checks of [startPaymentFlow]. *)
Definition validInputs (sellerAddress amount : string) : Prop :=
  publicKeyError sellerAddress = None /\ validateAmount amount = None.

(** The setup form is the only place where [sellerAddress] and [amount]
    change, and it is rendered only while there is no wallet: a wallet or a
    suspended [checkBalance] implies inputs that were validated.  The
    suspended invocations are numbered below [nextTask]. *)
Record consistent (w : World) : Prop := {
  setup_no_wallet : status (ui w) = setup -> tempWallet (ui w) = None;
  wallet_validated :
    tempWallet (ui w) <> None ->
    validInputs (sellerAddress (ui w)) (amount (ui w));
  tasks_validated :
    forall id t, pending w !! id = Some t ->
    validInputs (c_sellerAddress (taskClosure t)) (c_amount (taskClosure t));
  tasks_below_next :
    forall id t, pending w !! id = Some t -> (id < nextTask w)%nat }.

(** A change of the state that keeps the wallet and the inputs, and does not
    enter ['setup']. *)
Definition keepsSession (f : State -> State) : Prop :=
  forall s, tempWallet (f s) = tempWallet s /\
            sellerAddress (f s) = sellerAddress s /\
            amount (f s) = amount s /\
            (status (f s) = setup -> status s = setup).

(** ** Runs in which the balance does not meet the target *)

(** A run whose every event passes a test on the world it happens in. *)
Fixpoint runWhile (ok : World -> Event -> bool) (w : World) (es : list Event)
  : option World :=
  match es with
  | [] => Some w
  | e :: es' =>
      if ok w e then
        match step w e with
        | Some w' => runWhile ok w' es'
        | None => None
        end
      else None
  end.

(** The target that the invocation [id] compares the balance with. *)
Definition targetOf (w : World) (id : nat) : option number :=
  match pending w !! id with
  | Some (AwaitGetBalance c) => Some (parseFloat (c_amount c))
  | _ => None
  end.

(** A poll tick, or a balance strictly below the target of its check. *)
Definition pollBelowTarget (w : World) (e : Event) : bool :=
  match e with
  | PollTick => true
  | GetBalanceDone id (Resolved balance) =>
      match targetOf w id with
      | Some requiredAmount =>
          num_lt (balance / LAMPORTS_PER_SOL)%float requiredAmount
      | None => false
      end
  | _ => false
  end.

(** A tick of either interval, or a balance check that fails or does not
    pass [balanceInSol >= requiredAmount]. *)
Definition targetNotMet (w : World) (e : Event) : bool :=
  match e with
  | PollTick | CountdownTick => true
  | GetBalanceDone id (Rejected _) => true
  | GetBalanceDone id (Resolved balance) =>
      match targetOf w id with
      | Some requiredAmount =>
          negb (num_ge (balance / LAMPORTS_PER_SOL)%float requiredAmount)
      | None => false
      end
  | _ => false
  end.

Definition isCountdownTick (e : Event) : bool :=
  match e with CountdownTick => true | _ => false end.

Definition countdownTicks (es : list Event) : Z :=
  Z.of_nat (length (List.filter isCountdownTick es)).

(** The value the last resolved [getBalance] of a run leaves in [balance]. *)
Fixpoint lastPolled (default : number) (es : list Event) : number :=
  match es with
  | [] => default
  | GetBalanceDone _ (Resolved balance) :: es' =>
      lastPolled (balance / LAMPORTS_PER_SOL)%float es'
  | _ :: es' => lastPolled default es'
  end.

Definition sendCalls (l : list Call) : list Call :=
  List.filter isSendTransaction l.

(** What the inner [catch] leaves of a world [w] when the forward of the
    invocation [id] fails with [message]. *)
Definition forwardFailureOutcome
    (w : World) (id : nat) (message : string) (w' : World) : Prop :=
  status (ui w') = waiting /\
  error (ui w') = Some ("Failed to forward payment: " ++ message)%string /\
  timeLeft (ui w') = timeLeft (ui w) /\
  balance (ui w') = balance (ui w) /\
  txSignature (ui w') = txSignature (ui w) /\
  tempWallet (ui w') = tempWallet (ui w) /\
  calls w' = calls w /\
  pending w' = delete id (pending w).

(** ** Counting balance checks *)

Definition isGetBalance (c : Call) : bool :=
  match c with GetBalance _ => true | _ => false end.

Definition getBalanceCalls (l : list Call) : list Call :=
  List.filter isGetBalance l.

(** The invocation is suspended at [getBalance]. *)
Definition awaitsBalance (entry : nat * Task) : Prop :=
  match snd entry with
  | AwaitGetBalance _ => True
  | _ => False
  end.

#[local] Instance awaitsBalance_dec entry : Decision (awaitsBalance entry).
Proof. destruct entry as [id [c | c | c sig]]; cbn; apply _. Defined.

Definition checksAwaitingBalance (w : World) : nat :=
  size (filter awaitsBalance (pending w)).

(** Every transfer comes from a balance check of its own that has settled. *)
Definition oneForwardPerCheck (w : World) : Prop :=
  (length (sendCalls (calls w)) + checksAwaitingBalance w <=
   length (getBalanceCalls (calls w)))%nat.

(** ** What is rendered *)

Definition setCopied (v : bool) (s : State) : State :=
  mkState (tempWallet s) (timeLeft s) (status s) (balance s) (txSignature s)
    (error s) v (sellerAddress s) (addressError s) (amount s) (amountError s).

(** The string a status is in the source. *)
Definition statusString (s : Status) : string :=
  match s with
  | setup => "setup"
  | waiting => "waiting"
  | received => "received"
  | forwarding => "forwarding"
  | forwarded => "forwarded"
  | expired => "expired"
  end.

Definition getStatusColor (status : string) : string :=
  if String.eqb status "waiting" then "bg-yellow-400"
  else if String.eqb status "received" then "bg-blue-400"
  else if String.eqb status "forwarding" then "bg-blue-400"
  else if String.eqb status "forwarded" then "bg-green-400"
  else "bg-red-400".

Definition getStatusText (status : string) : string :=
  if String.eqb status "waiting" then "Waiting for Payment"
  else if String.eqb status "received" then "Payment Received"
  else if String.eqb status "forwarding" then "Forwarding Payment"
  else if String.eqb status "forwarded" then "Payment Complete"
  else if String.eqb status "expired" then "Payment Expired"
  else "Setup Payment".

(** The three branches of the conditional under [AnimatePresence]. *)
Inductive View : Type := SetupForm | ForwardingNotice | MainContent.

Definition view (s : State) : View :=
  match status s with
  | setup => SetupForm
  | forwarding => ForwardingNotice
  | _ => MainContent
  end.

(** [(status === 'forwarded' || status === 'expired') && <button>]. *)
Definition resetButtonShown (s : State) : bool :=
  match status s with
  | forwarded | expired => true
  | _ => false
  end.

(** [error && <div>]: null and the empty string show nothing. *)
Definition errorShown (s : State) : bool :=
  match error s with
  | Some message => negb (String.eqb message "")
  | None => false
  end.

(** *** The time that is left, as it is shown *)

Fixpoint digits (fuel : nat) (n : Z) (acc : string) : string :=
  match fuel with
  | O => acc
  | S fuel' =>
      let acc' := String (ascii_of_N (Z.to_N (48 + n mod 10))) acc in
      if n <? 10 then acc' else digits fuel' (n / 10) acc'
  end.

(** [n.toString()] for a number that is an integer. *)
Definition numberToString (n : Z) : string :=
  if n <? 0 then String "-"%char (digits (S (Z.to_nat (Z.log2 (- n)))) (- n) "")
  else digits (S (Z.to_nat (Z.log2 n))) n "".

(** The first [n] characters of [pad] repeated; [cur] is what is left of the
    copy being read. *)
Fixpoint filler (n : nat) (pad cur : string) : string :=
  match n with
  | O => ""
  | S n' =>
      match cur with
      | String a cur' => String a (filler n' pad cur')
      | EmptyString =>
          match pad with
          | String a pad' => String a (filler n' pad pad')
          | EmptyString => ""
          end
      end
  end.

(** [s.padStart(targetLength, padString)]. *)
Definition padStart (targetLength : nat) (padString s : string) : string :=
  if (targetLength <=? String.length s)%nat then s
  else (filler (targetLength - String.length s) padString padString ++ s)%string.

(** [{Math.floor(timeLeft / 60)}:{(timeLeft % 60).toString().padStart(2, '0')}] *)
Definition timeDisplay (timeLeft : Z) : string :=
  (numberToString (timeLeft / 60) ++ ":" ++
   padStart 2 "0" (numberToString (Z.rem timeLeft 60)))%string.

(** [(timeLeft / PAYMENT_WINDOW) * 100], the width of the bar in percent. *)
Definition progress (timeLeft : Z) : number :=
  (Platform.Z2number timeLeft / Platform.Z2number PAYMENT_WINDOW * 100)%float.

(** *** [handleCopy] *)

(** The page: the flow, the [clipboard.writeText] calls that have not
    settled, and the [setTimeout(() => setCopied(false), 2000)] timers that
    have not fired. *)
Record Page : Type := mkPage {
  flow : World;
  clipboardWrites : nat;
  copiedTimers : nat }.

Inductive PageEvent : Type :=
  | FlowEvent (e : Event)
  | ClickCopy
  | ClipboardDone (r : result unit)
  | CopiedTimerFires.

(** The copy button is part of the main content.  [handleCopy] awaits the
    clipboard; when the write resolved it sets [copied] and starts the
    timer, when it was rejected it only logs to the console. *)
Definition pageStep (p : Page) (e : PageEvent) : option Page :=
  match e with
  | FlowEvent e =>
      match step (flow p) e with
      | Some w' => Some (mkPage w' (clipboardWrites p) (copiedTimers p))
      | None => None
      end
  | ClickCopy =>
      match view (ui (flow p)) with
      | MainContent =>
          Some (mkPage (flow p) (S (clipboardWrites p)) (copiedTimers p))
      | _ => None
      end
  | ClipboardDone r =>
      match clipboardWrites p with
      | O => None
      | S writes =>
          match r with
          | Resolved _ =>
              Some (mkPage (withUi (setCopied true) (flow p)) writes
                      (S (copiedTimers p)))
          | Rejected _ => Some (mkPage (flow p) writes (copiedTimers p))
          end
      end
  | CopiedTimerFires =>
      match copiedTimers p with
      | O => None
      | S timers =>
          Some (mkPage (withUi (setCopied false) (flow p))
                  (clipboardWrites p) timers)
      end
  end.

Definition initialPage : Page := mkPage initialWorld 0 0.

Fixpoint pageRun (p : Page) (es : list PageEvent) : option Page :=
  match es with
  | [] => Some p
  | e :: es' =>
      match pageStep p e with
      | Some p' => pageRun p' es'
      | None => None
      end
  end.

Inductive pageReachable : Page -> Prop :=
  | pageReachable_init : pageReachable initialPage
  | pageReachable_step p e p' :
      pageReachable p -> pageStep p e = Some p' -> pageReachable p'.

(** ** The steps, case by case *)

(** The world a start leaves when both checks pass. *)
Definition startedSession (generated : Keypair) (w : World) : World :=
  withUi (setError None)
    (withUi (setTxSignature None)
       (withUi (setBalance 0%float)
          (withUi (setStatus waiting)
             (withUi (setTimeLeft PAYMENT_WINDOW)
                (withUi (setTempWallet (Some generated))
                   (logCall KeypairGenerate
                      (withUi (setAmountError None)
                         (withUi (setAddressError None) w)))))))).

(** The world a balance check leaves when it issues the transfer. *)
Definition forwardIssued
    (id : nat) (c : Closure) (polled : number) (w : World) : World :=
  suspend id (AwaitSendTransaction c)
    (logCall (SendTransaction (publicKey (c_tempWallet c)) (c_sellerAddress c)
                (polled - FEE_RESERVE)%float)
       (withUi (setStatus forwarding)
          (withUi (setStatus received)
             (withUi (setBalance (polled / LAMPORTS_PER_SOL)%float) w)))).

(** [step] as a relation: one rule for each path through a handler. *)
Inductive transition (w : World) : Event -> World -> Prop :=
  | start_address_rejected generated :
      status (ui w) = setup ->
      validateAddress (sellerAddress (ui w)) = false ->
      transition w (ClickStart generated)
        (withUi (setAddressError (Some "Invalid Solana address"))
           (withUi (setAmountError None) (withUi (setAddressError None) w)))
  | start_amount_rejected generated message :
      status (ui w) = setup ->
      validateAddress (sellerAddress (ui w)) = true ->
      validateAmount (amount (ui w)) = Some message ->
      transition w (ClickStart generated)
        (withUi (setAmountError (Some message))
           (withUi (setAmountError None) (withUi (setAddressError None) w)))
  | start_accepted generated :
      status (ui w) = setup ->
      validInputs (sellerAddress (ui w)) (amount (ui w)) ->
      transition w (ClickStart generated) (startedSession generated w)
  | reset_clicked :
      status (ui w) = forwarded \/ status (ui w) = expired ->
      transition w ClickReset (withUi resetFlow w)
  | seller_changed value :
      status (ui w) = setup ->
      transition w (ChangeSellerAddress value)
        (withUi (handleSellerAddressChange value) w)
  | amount_changed trimmed :
      status (ui w) = setup ->
      transition w (ChangeAmount trimmed)
        (withUi (handleAmountChange trimmed) w)
  | countdown_ticked :
      timersActive (ui w) = true ->
      transition w CountdownTick (withUi countdownTick w)
  | poll_ticked wallet :
      tempWallet (ui w) = Some wallet ->
      status (ui w) = waiting ->
      transition w PollTick
        (spawn (AwaitGetBalance
                  (mkClosure wallet (sellerAddress (ui w)) (amount (ui w))))
           (logCall (GetBalance (publicKey wallet)) w))
  | balance_rejected id c message :
      pending w !! id = Some (AwaitGetBalance c) ->
      transition w (GetBalanceDone id (Rejected message))
        (finish id (withUi (checkFailed message) w))
  | balance_below id c polled :
      pending w !! id = Some (AwaitGetBalance c) ->
      num_ge (polled / LAMPORTS_PER_SOL)%float
             (parseFloat (c_amount c)) = false ->
      transition w (GetBalanceDone id (Resolved polled))
        (finish id (withUi (setBalance (polled / LAMPORTS_PER_SOL)%float) w))
  | balance_met_bad_key id c polled message :
      pending w !! id = Some (AwaitGetBalance c) ->
      num_ge (polled / LAMPORTS_PER_SOL)%float
             (parseFloat (c_amount c)) = true ->
      publicKeyError (c_sellerAddress c) = Some message ->
      transition w (GetBalanceDone id (Resolved polled))
        (finish id
           (withUi (forwardFailed message)
              (withUi (setStatus forwarding)
                 (withUi (setStatus received)
                    (withUi (setBalance (polled / LAMPORTS_PER_SOL)%float)
                       w)))))
  | balance_met_bad_transfer id c polled message :
      pending w !! id = Some (AwaitGetBalance c) ->
      num_ge (polled / LAMPORTS_PER_SOL)%float
             (parseFloat (c_amount c)) = true ->
      publicKeyError (c_sellerAddress c) = None ->
      transferError (publicKey (c_tempWallet c)) (c_sellerAddress c)
        (polled - FEE_RESERVE)%float = Some message ->
      transition w (GetBalanceDone id (Resolved polled))
        (finish id
           (withUi (forwardFailed message)
              (withUi (setStatus forwarding)
                 (withUi (setStatus received)
                    (withUi (setBalance (polled / LAMPORTS_PER_SOL)%float)
                       w)))))
  | balance_met id c polled :
      pending w !! id = Some (AwaitGetBalance c) ->
      num_ge (polled / LAMPORTS_PER_SOL)%float
             (parseFloat (c_amount c)) = true ->
      publicKeyError (c_sellerAddress c) = None ->
      transferError (publicKey (c_tempWallet c)) (c_sellerAddress c)
        (polled - FEE_RESERVE)%float = None ->
      transition w (GetBalanceDone id (Resolved polled))
        (forwardIssued id c polled w)
  | send_rejected id c message :
      pending w !! id = Some (AwaitSendTransaction c) ->
      transition w (SendTransactionDone id (Rejected message))
        (finish id (withUi (forwardFailed message) w))
  | send_resolved id c signature :
      pending w !! id = Some (AwaitSendTransaction c) ->
      transition w (SendTransactionDone id (Resolved signature))
        (suspend id (AwaitConfirmTransaction c signature)
           (logCall (ConfirmTransaction signature) w))
  | confirm_rejected id c signature message :
      pending w !! id = Some (AwaitConfirmTransaction c signature) ->
      transition w (ConfirmTransactionDone id (Rejected message))
        (finish id (withUi (forwardFailed message) w))
  | confirm_resolved id c signature u :
      pending w !! id = Some (AwaitConfirmTransaction c signature) ->
      transition w (ConfirmTransactionDone id (Resolved u))
        (finish id
           (withUi (setStatus forwarded)
              (withUi (setTxSignature (Some signature)) w))).

(** ** Facts about the call log *)

(** Every signature the state or a suspended invocation holds was handed to
    [confirmTransaction], and ['forwarded'] comes with a signature. *)
Definition signaturesConfirmed (w : World) : Prop :=
  (forall signature, txSignature (ui w) = Some signature ->
     In (ConfirmTransaction signature) (calls w)) /\
  (forall id c signature,
     pending w !! id = Some (AwaitConfirmTransaction c signature) ->
     In (ConfirmTransaction signature) (calls w)) /\
  (status (ui w) = forwarded -> txSignature (ui w) <> None).

(** What holds of a transfer in the log: it goes to an address that
    [new PublicKey] accepts and carries, less the reserve, a balance that met
    a target that passed [validateAmount]. *)
Definition transferJustified (call : Call) : Prop :=
  match call with
  | SendTransaction _ toPubkey lamports =>
      publicKeyError toPubkey = None /\
      exists polled amount,
        lamports = (polled - FEE_RESERVE)%float /\
        validateAmount amount = None /\
        num_ge (polled / LAMPORTS_PER_SOL)%float (parseFloat amount) = true
  | _ => True
  end.

(** The character of a decimal digit. *)
Definition digitChar (d : Z) : ascii := ascii_of_N (Z.to_N (48 + d)).

(** * Properties *)

(** ** Comparisons of numbers *)

Lemma SFcompare_swap (x y : SpecFloat.spec_float) :
  SpecFloat.SFcompare y x =
  match SpecFloat.SFcompare x y with
  | Some c => Some (CompOpp c)
  | None => None
  end.
Proof.
  destruct x as [sx | sx | | sx mx ex], y as [sy | sy | | sy my ey];
    try reflexivity;
    try (destruct sx; reflexivity);
    try (destruct sy; reflexivity);
    try (destruct sx, sy; reflexivity).
  cbn [SpecFloat.SFcompare].
  pose proof (Pos.compare_cont_antisym mx my Eq) as Hm.
  cbn [CompOpp] in Hm.
  destruct sx, sy; try reflexivity;
    rewrite (Z.compare_antisym ex ey);
    destruct (ex ?= ey); cbn [CompOpp]; try reflexivity;
    rewrite <- Hm; destruct (Pos.compare_cont Eq mx my); reflexivity.
Qed.

(** Equal numbers pass [>=]. *)
Lemma num_eq_ge (a b : number) : num_eq a b = true -> num_ge a b = true.
Proof.
  unfold num_eq, num_ge.
  rewrite FloatAxioms.eqb_spec, FloatAxioms.leb_spec.
  unfold SpecFloat.SFeqb, SpecFloat.SFleb.
  rewrite (SFcompare_swap (Prim2SF a) (Prim2SF b)).
  destruct (SpecFloat.SFcompare (Prim2SF a) (Prim2SF b)) as [[ | | ] | ];
    cbn; congruence.
Qed.

(** A number strictly below another does not pass [>=]. *)
Lemma num_lt_not_ge (a b : number) : num_lt a b = true -> num_ge a b = false.
Proof.
  unfold num_lt, num_ge.
  rewrite FloatAxioms.ltb_spec, FloatAxioms.leb_spec.
  unfold SpecFloat.SFltb, SpecFloat.SFleb.
  rewrite (SFcompare_swap (Prim2SF a) (Prim2SF b)).
  destruct (SpecFloat.SFcompare (Prim2SF a) (Prim2SF b)) as [[ | | ] | ];
    cbn; congruence.
Qed.

(** NaN passes no comparison. *)
Lemma isNaN_not_ge (a b : number) : isNaN b = true -> num_ge a b = false.
Proof.
  unfold isNaN, PrimFloat.is_nan, num_ge.
  rewrite FloatAxioms.eqb_spec, FloatAxioms.leb_spec.
  unfold SpecFloat.SFeqb, SpecFloat.SFleb.
  destruct (Prim2SF b) as [ sb | sb | | sb mb eb ] eqn:Hb.
  - discriminate.
  - destruct sb; discriminate.
  - intros _. destruct (Prim2SF a); reflexivity.
  - cbn [SpecFloat.SFcompare]. destruct sb;
      rewrite Z.compare_refl, Pos.compare_cont_refl; discriminate.
Qed.

(** ** Reachable worlds *)

Lemma reachable_run w es w' :
  reachable w -> run w es = Some w' -> reachable w'.
Proof.
  revert w. induction es as [ | e es IH]; intros w Hw Hrun; cbn in Hrun.
  - congruence.
  - destruct (step w e) as [w1 | ] eqn:Hstep; [ | discriminate].
    eapply IH; [ | exact Hrun]. econstructor; eassumption.
Qed.

(** ** The consistency invariant *)

Lemma validateAddress_true s :
  validateAddress s = true <-> publicKeyError s = None.
Proof.
  unfold validateAddress. destruct (publicKeyError s); split; congruence.
Qed.

Lemma consistent_initial : consistent initialWorld.
Proof.
  split; cbn; try congruence;
    intros id t H; rewrite lookup_empty in H; discriminate.
Qed.

Lemma consistent_suspend id t w :
  consistent w ->
  validInputs (c_sellerAddress (taskClosure t)) (c_amount (taskClosure t)) ->
  (id < nextTask w)%nat ->
  consistent (suspend id t w).
Proof.
  intros [H1 H2 H3 H4] Ht Hid. split; cbn; auto;
    intros id' t' H; destruct (decide (id = id')) as [Heq | Hne];
    try (subst id'; rewrite lookup_insert_eq in H; congruence);
    rewrite lookup_insert_ne in H by assumption; eauto.
Qed.

Lemma consistent_finish id w : consistent w -> consistent (finish id w).
Proof.
  intros [H1 H2 H3 H4]. split; cbn; auto;
    intros id' t' H; destruct (decide (id = id')) as [Heq | Hne];
    try (subst id'; rewrite lookup_delete_eq in H; discriminate);
    rewrite lookup_delete_ne in H by assumption; eauto.
Qed.

Lemma consistent_logCall c w : consistent w -> consistent (logCall c w).
Proof. intros [H1 H2 H3 H4]. split; cbn; auto. Qed.

Lemma consistent_withUi (f : State -> State) w :
  consistent w -> keepsSession f -> consistent (withUi f w).
Proof.
  intros [H1 H2 H3 H4] Hf. destruct (Hf (ui w)) as (Ew & Es & Ea & Est).
  split; cbn; auto.
  - rewrite Ew. auto.
  - rewrite Ew, Es, Ea. auto.
Qed.

Lemma keepsSession_forwardFailed message : keepsSession (forwardFailed message).
Proof. intros st; cbn; repeat split; congruence. Qed.

Lemma keepsSession_checkFailed message : keepsSession (checkFailed message).
Proof. intros st; cbn; repeat split; congruence. Qed.

Lemma keepsSession_setBalance v : keepsSession (setBalance v).
Proof. intros st; cbn; repeat split; congruence. Qed.

Lemma keepsSession_setTxSignature v : keepsSession (setTxSignature v).
Proof. intros st; cbn; repeat split; congruence. Qed.

Lemma keepsSession_setStatus v : v <> setup -> keepsSession (setStatus v).
Proof. intros Hv st; cbn; repeat split; congruence. Qed.

Lemma keepsSession_countdownTick : keepsSession countdownTick.
Proof.
  intros st. unfold countdownTick.
  destruct (timeLeft st <=? 1); cbn; repeat split; congruence.
Qed.

Lemma Status_eqb_eq a b : Status_eqb a b = true <-> a = b.
Proof. destruct a, b; cbn; split; congruence. Qed.

Lemma timersActive_true s :
  timersActive s = true <->
  (exists wallet, tempWallet s = Some wallet) /\ status s = waiting.
Proof.
  unfold timersActive. destruct (tempWallet s) as [wallet | ].
  - rewrite Status_eqb_eq. split; [eauto | tauto].
  - split; [discriminate | ]. intros [[wallet H] _]. discriminate.
Qed.

Create HintDb flow.
#[local] Hint Resolve consistent_finish consistent_logCall consistent_withUi
  keepsSession_forwardFailed keepsSession_checkFailed keepsSession_setBalance
  keepsSession_setTxSignature keepsSession_countdownTick : flow.
#[local] Hint Extern 1 (keepsSession (setStatus _)) =>
  apply keepsSession_setStatus; discriminate : flow.

Lemma consistent_step w e w' :
  consistent w -> step w e = Some w' -> consistent w'.
Proof.
  intros Hw Hstep. destruct e; cbn in Hstep.
  - (* ClickStart *)
    destruct (Status_eqb (status (ui w)) setup) eqn:Hst; [ | discriminate].
    injection Hstep as <-. unfold startPaymentFlow. cbn.
    destruct Hw as [H1 H2 H3 H4].
    destruct (validateAddress (sellerAddress (ui w))) eqn:Ha; cbn;
      [destruct (validateAmount (amount (ui w))) eqn:Hm | ];
      split; cbn; auto; try discriminate.
    intros _. split; [ | assumption]. now apply validateAddress_true.
  - (* ClickReset *)
    destruct Hw as [H1 H2 H3 H4].
    destruct (status (ui w)); try discriminate; injection Hstep as <-;
      split; cbn; auto; congruence.
  - (* ChangeSellerAddress *)
    destruct (Status_eqb (status (ui w)) setup) eqn:Hst; [ | discriminate].
    apply Status_eqb_eq in Hst.
    injection Hstep as <-. destruct Hw as [H1 H2 H3 H4].
    split; cbn; auto. intros Hne. elim Hne. auto.
  - (* ChangeAmount *)
    destruct (Status_eqb (status (ui w)) setup) eqn:Hst; [ | discriminate].
    apply Status_eqb_eq in Hst.
    injection Hstep as <-. destruct Hw as [H1 H2 H3 H4].
    split; cbn; auto. intros Hne. elim Hne. auto.
  - (* CountdownTick *)
    destruct (timersActive (ui w)); [ | discriminate]. injection Hstep as <-.
    auto with flow.
  - (* PollTick *)
    destruct (timersActive (ui w)); [ | discriminate]. injection Hstep as <-.
    unfold checkBalance_start.
    destruct (tempWallet (ui w)) as [wallet | ] eqn:Hwallet; [ | assumption].
    pose proof (wallet_validated w Hw) as Hv. rewrite Hwallet in Hv.
    destruct Hw as [H1 H2 H3 H4]. split; cbn; auto;
      intros id t H; destruct (decide (nextTask w = id)) as [Heq | Hne].
    + subst id. rewrite lookup_insert_eq in H. injection H as <-. cbn.
      apply Hv. discriminate.
    + rewrite lookup_insert_ne in H by assumption. eauto.
    + lia.
    + rewrite lookup_insert_ne in H by assumption.
      specialize (H4 _ _ H). lia.
  - (* GetBalanceDone *)
    destruct (pending w !! task) as [[c | c | c sig] | ] eqn:Ht; try discriminate.
    injection Hstep as <-. pose proof (tasks_validated w Hw _ _ Ht) as Hc.
    pose proof (tasks_below_next w Hw _ _ Ht) as Hid.
    unfold checkBalance_gotBalance. destruct r as [b | msg].
    + destruct (num_ge _ _).
      * destruct (publicKeyError (c_sellerAddress c));
          [ | destruct (transferError _ _ _);
              [ | apply consistent_suspend; [ | exact Hc | exact Hid] ] ];
          auto 8 with flow.
      * auto with flow.
    + auto with flow.
  - (* SendTransactionDone *)
    destruct (pending w !! task) as [[c | c | c sig] | ] eqn:Ht; try discriminate.
    injection Hstep as <-. pose proof (tasks_validated w Hw _ _ Ht) as Hc.
    pose proof (tasks_below_next w Hw _ _ Ht) as Hid.
    unfold checkBalance_sent. destruct r as [sig | msg].
    + apply consistent_suspend; [ | exact Hc | exact Hid]. auto with flow.
    + auto with flow.
  - (* ConfirmTransactionDone *)
    destruct (pending w !! task) as [[c | c | c sig] | ] eqn:Ht; try discriminate.
    injection Hstep as <-.
    unfold checkBalance_confirmed. destruct r as [u | msg]; auto 8 with flow.
Qed.

Lemma reachable_consistent w : reachable w -> consistent w.
Proof.
  induction 1 as [ | w e w' _ IH Hstep].
  - apply consistent_initial.
  - eapply consistent_step; eassumption.
Qed.

(** ** Starting a session *)

Lemma validateAmount_invalid value :
  isNaN (parseFloat value) = true \/
  num_le (parseFloat value) 0%float = true \/
  num_gt (parseFloat value) 100%float = true <->
  validateAmount value <> None.
Proof.
  unfold validateAmount.
  destruct (isNaN (parseFloat value)),
           (num_le (parseFloat value) 0%float),
           (num_gt (parseFloat value) 100%float);
    split; intros H; try discriminate; try tauto;
    try (now left); try (right; now left); try (right; now right).
  destruct H as [H | [H | H]]; discriminate.
Qed.

(** C4.  A click on the start button with an address that [new PublicKey]
    refuses, or an amount that [parseFloat] reads as NaN, as a number [<= 0]
    or as a number [> 100], is handled and leaves the component in
    ['setup']: an error is recorded for the field that failed (the address
    when it is invalid, otherwise the amount), no keypair is generated
    (wallet and call log are unchanged), nothing is suspended, the countdown
    is not set and neither interval is installed. *)
Theorem start_invalid_stays_in_setup (generated : Keypair) (w : World) :
  status (ui w) = setup ->
  (validateAddress (sellerAddress (ui w)) = false \/
   isNaN (parseFloat (amount (ui w))) = true \/
   num_le (parseFloat (amount (ui w))) 0%float = true \/
   num_gt (parseFloat (amount (ui w))) 100%float = true) ->
  exists w',
    step w (ClickStart generated) = Some w' /\
    status (ui w') = setup /\
    (validateAddress (sellerAddress (ui w)) = false ->
       addressError (ui w') = Some "Invalid Solana address") /\
    (validateAddress (sellerAddress (ui w)) = true ->
       addressError (ui w') = None /\
       amountError (ui w') <> None /\
       amountError (ui w') = validateAmount (amount (ui w))) /\
    tempWallet (ui w') = tempWallet (ui w) /\
    timeLeft (ui w') = timeLeft (ui w) /\
    timersActive (ui w') = false /\
    calls w' = calls w /\
    pending w' = pending w.
Proof.
  intros Hsetup Hbad. exists (startPaymentFlow generated w).
  assert (forall s, status s = setup -> timersActive s = false) as Hoff.
  { intros s Hs. unfold timersActive. rewrite Hs. now destruct (tempWallet s). }
  split.
  { cbn. now rewrite Hsetup. }
  unfold startPaymentFlow. cbn.
  destruct (validateAddress (sellerAddress (ui w))) eqn:Ha; cbn.
  - destruct Hbad as [Hbad | Hbad]; [discriminate | ].
    apply validateAmount_invalid in Hbad.
    destruct (validateAmount (amount (ui w))) as [message | ] eqn:Hm;
      [ | congruence].
    cbn. repeat split; auto; discriminate.
  - repeat split; auto; discriminate.
Qed.

(** ** A forward that fails *)

(** C3.  When the [sendTransaction] or the [confirmTransaction] of a forward
    is rejected, the inner [catch] runs: [status] is ['waiting'] (not
    ['forwarded']), [error] holds ['Failed to forward payment: '] followed by
    the message of the failure, and [timeLeft], [balance], [txSignature],
    the wallet and the call log are as they were. *)
Theorem forward_failure_returns_to_waiting
    (w : World) (id : nat) (c : Closure) (message : string) :
  (pending w !! id = Some (AwaitSendTransaction c) ->
   exists w', step w (SendTransactionDone id (Rejected message)) = Some w' /\
              forwardFailureOutcome w id message w') /\
  (forall signature,
   pending w !! id = Some (AwaitConfirmTransaction c signature) ->
   exists w', step w (ConfirmTransactionDone id (Rejected message)) = Some w' /\
              forwardFailureOutcome w id message w').
Proof.
  split; [intros Ht | intros signature Ht];
    eexists; (split; [cbn; rewrite Ht; reflexivity | ]);
    cbn; repeat split; reflexivity.
Qed.

(** ** A balance check that settles *)

Lemma setBalance_balance s : setBalance (balance s) s = s.
Proof. now destruct s. Qed.

Lemma sendCalls_app l l' : sendCalls (l ++ l') = sendCalls l ++ sendCalls l'.
Proof. apply List.filter_app. Qed.

Lemma targetOf_Some w id requiredAmount :
  targetOf w id = Some requiredAmount ->
  exists c, pending w !! id = Some (AwaitGetBalance c) /\
            requiredAmount = parseFloat (c_amount c).
Proof.
  unfold targetOf.
  destruct (pending w !! id) as [[c | c | c sig] | ]; try discriminate.
  intros [= <-]. eauto.
Qed.

(** The branch [balanceInSol >= requiredAmount] of a check whose seller
    address constructs a key and whose transfer instruction is built. *)
Lemma gotBalance_meets w id c balance :
  publicKeyError (c_sellerAddress c) = None ->
  transferError (publicKey (c_tempWallet c)) (c_sellerAddress c)
    (balance - FEE_RESERVE)%float = None ->
  pending w !! id = Some (AwaitGetBalance c) ->
  num_ge (balance / LAMPORTS_PER_SOL)%float (parseFloat (c_amount c)) = true ->
  exists w',
    step w (GetBalanceDone id (Resolved balance)) = Some w' /\
    ui w' = setStatus forwarding
              (setBalance (balance / LAMPORTS_PER_SOL)%float (ui w)) /\
    calls w' = calls w ++
      [SendTransaction (publicKey (c_tempWallet c)) (c_sellerAddress c)
         (balance - FEE_RESERVE)%float] /\
    pending w' = <[id := AwaitSendTransaction c]> (pending w).
Proof.
  intros Hkey Hbuilt Ht Hge. eexists. split.
  - unfold step. rewrite Ht. unfold checkBalance_gotBalance.
    rewrite Hge, Hkey, Hbuilt. reflexivity.
  - cbn. repeat split; reflexivity.
Qed.

(** The other branch: only [setBalance] has run. *)
Lemma gotBalance_not_met w id c balance :
  pending w !! id = Some (AwaitGetBalance c) ->
  num_ge (balance / LAMPORTS_PER_SOL)%float (parseFloat (c_amount c)) = false ->
  step w (GetBalanceDone id (Resolved balance)) =
    Some (finish id (withUi (setBalance (balance / LAMPORTS_PER_SOL)%float) w)).
Proof.
  intros Ht Hge. unfold step. rewrite Ht. unfold checkBalance_gotBalance.
  rewrite Hge. reflexivity.
Qed.

(** The branch [balanceInSol >= requiredAmount] of a check whose transfer
    instruction is not built: the inner [catch] runs at once. *)
Lemma gotBalance_not_built w id c balance message :
  publicKeyError (c_sellerAddress c) = None ->
  transferError (publicKey (c_tempWallet c)) (c_sellerAddress c)
    (balance - FEE_RESERVE)%float = Some message ->
  pending w !! id = Some (AwaitGetBalance c) ->
  num_ge (balance / LAMPORTS_PER_SOL)%float (parseFloat (c_amount c)) = true ->
  step w (GetBalanceDone id (Resolved balance)) =
    Some (finish id
            (withUi (forwardFailed message)
               (withUi (setStatus forwarding)
                  (withUi (setStatus received)
                     (withUi (setBalance (balance / LAMPORTS_PER_SOL)%float)
                        w))))).
Proof.
  intros Hkey Hthrown Ht Hge. unfold step. rewrite Ht.
  unfold checkBalance_gotBalance. rewrite Hge, Hkey, Hthrown. reflexivity.
Qed.

(** A step adds at most one call to the log, and a [sendTransaction] only in
    the branch [balanceInSol >= requiredAmount] of a balance check. *)
Lemma step_calls w e w' :
  step w e = Some w' ->
  calls w' = calls w \/
  exists call, calls w' = calls w ++ [call] /\
    (isSendTransaction call = true ->
     exists id c polled,
       e = GetBalanceDone id (Resolved polled) /\
       pending w !! id = Some (AwaitGetBalance c) /\
       num_ge (polled / LAMPORTS_PER_SOL)%float
              (parseFloat (c_amount c)) = true /\
       call = SendTransaction (publicKey (c_tempWallet c))
                (c_sellerAddress c) (polled - FEE_RESERVE)%float /\
       transferError (publicKey (c_tempWallet c)) (c_sellerAddress c)
         (polled - FEE_RESERVE)%float = None /\
       status (ui w') = forwarding /\
       balance (ui w') = (polled / LAMPORTS_PER_SOL)%float).
Proof.
  intros Hstep. destruct e; cbn in Hstep.
  - destruct (Status_eqb (status (ui w)) setup); [ | discriminate].
    injection Hstep as <-. unfold startPaymentFlow. cbn.
    destruct (validateAddress (sellerAddress (ui w))); cbn; [ | now left].
    destruct (validateAmount (amount (ui w))); cbn; [now left | ].
    right. eexists. split; [reflexivity | discriminate].
  - destruct (status (ui w)); try discriminate; injection Hstep as <-; now left.
  - destruct (Status_eqb (status (ui w)) setup); [ | discriminate].
    injection Hstep as <-. now left.
  - destruct (Status_eqb (status (ui w)) setup); [ | discriminate].
    injection Hstep as <-. now left.
  - destruct (timersActive (ui w)); [ | discriminate].
    injection Hstep as <-. now left.
  - destruct (timersActive (ui w)); [ | discriminate].
    injection Hstep as <-. unfold checkBalance_start.
    destruct (tempWallet (ui w)); [ | now left].
    right. eexists. split; [reflexivity | discriminate].
  - destruct (pending w !! task) as [[c | c | c sig] | ] eqn:Ht; try discriminate.
    injection Hstep as <-. unfold checkBalance_gotBalance.
    destruct r as [b | msg]; [ | now left].
    destruct (num_ge _ _) eqn:Hge; [ | now left].
    destruct (publicKeyError (c_sellerAddress c)); [now left | ].
    destruct (transferError _ _ _) eqn:Hbuilt; [now left | ].
    right. eexists. split; [reflexivity | ]. intros _.
    exists task, c, b. repeat split; auto.
  - destruct (pending w !! task) as [[c | c | c sig] | ] eqn:Ht; try discriminate.
    injection Hstep as <-. unfold checkBalance_sent.
    destruct r as [sig | msg]; [ | now left].
    right. eexists. split; [reflexivity | discriminate].
  - destruct (pending w !! task) as [[c | c | c sig] | ] eqn:Ht; try discriminate.
    injection Hstep as <-. unfold checkBalance_confirmed.
    destruct r as [u | msg]; now left.
Qed.

(** C1, as the code has it.  A [sendTransaction] is issued only by a balance
    check that passed [balanceInSol >= requiredAmount] and whose transfer
    instruction the library built, and it transfers the balance that check
    read, in lamports, minus 5000.  The check has no test of its own on that
    difference: whenever the balance passes the comparison and the library
    builds the instruction for [balance - 5000], [status] becomes
    ['forwarding'] and the transfer is issued, a transfer of zero as any
    other; when the library throws instead, the inner [catch] runs in the
    same segment: ['waiting'], the message in [error], and no
    [sendTransaction]. *)
Theorem forward_amount_is_balance_minus_reserve (w : World) :
  (forall e w' fromPubkey toPubkey lamports,
     step w e = Some w' ->
     calls w' <> calls w ->
     last (calls w') = Some (SendTransaction fromPubkey toPubkey lamports) ->
     exists id c balance,
       e = GetBalanceDone id (Resolved balance) /\
       pending w !! id = Some (AwaitGetBalance c) /\
       num_ge (balance / LAMPORTS_PER_SOL)%float
              (parseFloat (c_amount c)) = true /\
       lamports = (balance - FEE_RESERVE)%float /\
       fromPubkey = publicKey (c_tempWallet c) /\
       toPubkey = c_sellerAddress c /\
       transferError fromPubkey toPubkey lamports = None) /\
  (forall id c balance,
     reachable w ->
     pending w !! id = Some (AwaitGetBalance c) ->
     num_ge (balance / LAMPORTS_PER_SOL)%float
            (parseFloat (c_amount c)) = true ->
     (transferError (publicKey (c_tempWallet c)) (c_sellerAddress c)
        (balance - FEE_RESERVE)%float = None ->
      exists w',
        step w (GetBalanceDone id (Resolved balance)) = Some w' /\
        status (ui w') = forwarding /\
        calls w' = calls w ++
          [SendTransaction (publicKey (c_tempWallet c)) (c_sellerAddress c)
             (balance - FEE_RESERVE)%float]) /\
     (forall message,
        transferError (publicKey (c_tempWallet c)) (c_sellerAddress c)
          (balance - FEE_RESERVE)%float = Some message ->
        exists w',
          step w (GetBalanceDone id (Resolved balance)) = Some w' /\
          status (ui w') = waiting /\
          error (ui w') =
            Some ("Failed to forward payment: " ++ message)%string /\
          calls w' = calls w /\
          pending w' = delete id (pending w))).
Proof.
  split.
  - intros e w' fromPubkey toPubkey lamports Hstep Hnew Hlast.
    destruct (step_calls w e w' Hstep) as [Hsame | (call & Hcall & Hsend)];
      [congruence | ].
    rewrite Hcall, last_snoc in Hlast. injection Hlast as ->.
    destruct (Hsend eq_refl) as (id & c & b & He & Ht & Hge & Hc & Hbuilt & _).
    injection Hc as -> -> ->. exists id, c, b. repeat split; assumption.
  - intros id c b Hreach Ht Hge.
    pose proof (tasks_validated w (reachable_consistent w Hreach) _ _ Ht)
      as [Hkey _].
    split.
    + intros Hbuilt.
      destruct (gotBalance_meets w id c b Hkey Hbuilt Ht Hge)
        as (w' & Hstep & Hui & Hcalls & _).
      exists w'. rewrite Hui. auto.
    + intros message Hthrown. eexists.
      split; [exact (gotBalance_not_built w id c b message Hkey Hthrown Ht Hge)
             | ].
      cbn. auto.
Qed.

(** ** Polls below the target *)

Lemma pollBelowTarget_step w e w1 :
  pollBelowTarget w e = true -> step w e = Some w1 ->
  ui w1 = setBalance (lastPolled (balance (ui w)) [e]) (ui w) /\
  sendCalls (calls w1) = sendCalls (calls w).
Proof.
  intros Hok Hstep. destruct e as [ | | | | | | id r | | ]; try discriminate.
  - unfold step in Hstep. destruct (timersActive (ui w)); [ | discriminate].
    injection Hstep as <-. unfold checkBalance_start.
    destruct (tempWallet (ui w)); cbn; rewrite setBalance_balance;
      [ | now split].
    split; [reflexivity | ]. rewrite sendCalls_app. cbn. apply app_nil_r.
  - destruct r as [polled | message]; [ | discriminate]. cbn in Hok.
    destruct (targetOf w id) as [requiredAmount | ] eqn:Htarget;
      [ | discriminate].
    apply targetOf_Some in Htarget as (c & Ht & ->).
    apply num_lt_not_ge in Hok.
    rewrite (gotBalance_not_met w id c polled Ht Hok) in Hstep.
    injection Hstep as <-. now split.
Qed.

Lemma pollBelowTarget_run es : forall w w',
  runWhile pollBelowTarget w es = Some w' ->
  ui w' = setBalance (lastPolled (balance (ui w)) es) (ui w) /\
  sendCalls (calls w') = sendCalls (calls w).
Proof.
  induction es as [ | e es IH]; intros w w' Hrun; cbn [runWhile] in Hrun.
  - injection Hrun as <-. cbn. now rewrite setBalance_balance.
  - destruct (pollBelowTarget w e) eqn:Hok; [ | discriminate].
    destruct (step w e) as [w1 | ] eqn:Hstep; [ | discriminate].
    destruct (pollBelowTarget_step w e w1 Hok Hstep) as [Hui Hcalls].
    destruct (IH w1 w' Hrun) as [Hui' Hcalls']. split; [ | congruence].
    rewrite Hui', Hui.
    destruct e as [ | | | | | | id [polled | message] | | ];
      try discriminate; cbn; try rewrite setBalance_balance; reflexivity.
Qed.

(** C2, as the code has it.  In ['waiting'], a balance check that reads a
    balance [>=] the target (equal to it included) sets [status] to
    ['forwarding'] and attempts the forward: when the library builds the
    transfer of the balance minus 5000, the session is in ['forwarding']
    with the transfer issued; when the library throws on it, the attempt
    has failed by the end of the same segment ([setStatus('forwarding')]
    is followed by the [catch]) and the session is in ['waiting'] with the
    message in [error] and no transfer issued.  A
    check that reads a balance strictly below the target only stores the
    balance; and after any number of poll ticks and balances strictly below
    the target, [status] is still ['waiting'], the state differs from the
    first one in [balance] only, and no transfer was issued. *)
Theorem poll_threshold_decision
    (w : World) (id : nat) (c : Closure) (polled : number) :
  reachable w ->
  status (ui w) = waiting ->
  pending w !! id = Some (AwaitGetBalance c) ->
  let balanceInSol := (polled / LAMPORTS_PER_SOL)%float in
  let requiredAmount := parseFloat (c_amount c) in
  (num_ge balanceInSol requiredAmount = true ->
   (transferError (publicKey (c_tempWallet c)) (c_sellerAddress c)
      (polled - FEE_RESERVE)%float = None ->
    exists w',
      step w (GetBalanceDone id (Resolved polled)) = Some w' /\
      status (ui w') = forwarding /\
      balance (ui w') = balanceInSol /\
      sendCalls (calls w') = sendCalls (calls w) ++
        [SendTransaction (publicKey (c_tempWallet c)) (c_sellerAddress c)
           (polled - FEE_RESERVE)%float] /\
      pending w' !! id = Some (AwaitSendTransaction c)) /\
   (forall message,
      transferError (publicKey (c_tempWallet c)) (c_sellerAddress c)
        (polled - FEE_RESERVE)%float = Some message ->
      exists w',
        step w (GetBalanceDone id (Resolved polled)) = Some w' /\
        ui w' =
          forwardFailed message
            (setStatus forwarding
               (setStatus received (setBalance balanceInSol (ui w)))) /\
        status (ui w') = waiting /\
        balance (ui w') = balanceInSol /\
        error (ui w') =
          Some ("Failed to forward payment: " ++ message)%string /\
        calls w' = calls w /\
        pending w' !! id = None)) /\
  (num_eq balanceInSol requiredAmount = true ->
   num_ge balanceInSol requiredAmount = true) /\
  (num_lt balanceInSol requiredAmount = true ->
   exists w',
     step w (GetBalanceDone id (Resolved polled)) = Some w' /\
     ui w' = setBalance balanceInSol (ui w) /\
     status (ui w') = waiting /\
     calls w' = calls w) /\
  (forall es w',
     runWhile pollBelowTarget w es = Some w' ->
     status (ui w') = waiting /\
     ui w' = setBalance (lastPolled (balance (ui w)) es) (ui w) /\
     sendCalls (calls w') = sendCalls (calls w)).
Proof.
  intros Hreach Hwaiting Ht balanceInSol requiredAmount.
  split; [ | split; [ | split]].
  - intros Hge.
    pose proof (tasks_validated w (reachable_consistent w Hreach) _ _ Ht)
      as [Hkey _].
    split.
    + intros Hbuilt.
      destruct (gotBalance_meets w id c polled Hkey Hbuilt Ht Hge)
        as (w' & Hstep & Hui & Hcalls & Hpending).
      exists w'.
      rewrite Hui, Hcalls, Hpending, sendCalls_app, lookup_insert_eq.
      auto.
    + intros message Hthrown. eexists.
      split; [exact (gotBalance_not_built w id c polled message
                       Hkey Hthrown Ht Hge) | ].
      cbn. rewrite lookup_delete_eq. repeat split.
  - apply num_eq_ge.
  - intros Hlt. apply num_lt_not_ge in Hlt. eexists.
    split; [exact (gotBalance_not_met w id c polled Ht Hlt) | ].
    cbn. auto.
  - intros es w' Hrun.
    apply pollBelowTarget_run in Hrun as [Hui Hcalls].
    rewrite Hui. auto.
Qed.

(** ** The countdown *)

Lemma targetNotMet_step w e w1 :
  targetNotMet w e = true -> step w e = Some w1 ->
  sendCalls (calls w1) = sendCalls (calls w) /\
  balance (ui w1) = lastPolled (balance (ui w)) [e] /\
  tempWallet (ui w1) = tempWallet (ui w) /\
  (if isCountdownTick e
   then timersActive (ui w) = true /\
        status (ui w1) = (if timeLeft (ui w) <=? 1 then expired
                          else status (ui w)) /\
        timeLeft (ui w1) = (if timeLeft (ui w) <=? 1 then 0
                            else timeLeft (ui w) - 1)
   else status (ui w1) = status (ui w) /\
        timeLeft (ui w1) = timeLeft (ui w)).
Proof.
  intros Hok Hstep. destruct e as [ | | | | | | id r | | ]; try discriminate.
  - unfold step in Hstep.
    destruct (timersActive (ui w)) eqn:Hactive; [ | discriminate].
    injection Hstep as <-. cbn. unfold countdownTick.
    destruct (timeLeft (ui w) <=? 1); cbn; repeat split; reflexivity.
  - unfold step in Hstep. destruct (timersActive (ui w)); [ | discriminate].
    injection Hstep as <-. unfold checkBalance_start.
    destruct (tempWallet (ui w)) eqn:Hwallet; cbn; rewrite ?Hwallet;
      repeat split; auto.
    rewrite sendCalls_app. cbn. apply app_nil_r.
  - destruct r as [polled | message]; cbn in Hok.
    + destruct (targetOf w id) as [requiredAmount | ] eqn:Htarget;
        [ | discriminate].
      apply targetOf_Some in Htarget as (c & Ht & ->).
      apply negb_true_iff in Hok.
      rewrite (gotBalance_not_met w id c polled Ht Hok) in Hstep.
      injection Hstep as <-. cbn. repeat split; reflexivity.
    + unfold step in Hstep.
      destruct (pending w !! id) as [[c | c | c sig] | ]; try discriminate.
      injection Hstep as <-. cbn. repeat split; reflexivity.
Qed.

Lemma lastPolled_cons default e es :
  lastPolled default (e :: es) = lastPolled (lastPolled default [e]) es.
Proof.
  destruct e as [ | | | | | | id [polled | message] | | ]; reflexivity.
Qed.

Lemma countdownTicks_cons e es :
  countdownTicks (e :: es) =
  (if isCountdownTick e then 1 else 0) + countdownTicks es.
Proof.
  unfold countdownTicks. cbn [List.filter].
  destruct (isCountdownTick e); cbn [length]; lia.
Qed.

(** What such a run never touches. *)
Lemma targetNotMet_run_frame es : forall w w',
  runWhile targetNotMet w es = Some w' ->
  sendCalls (calls w') = sendCalls (calls w) /\
  balance (ui w') = lastPolled (balance (ui w)) es /\
  tempWallet (ui w') = tempWallet (ui w).
Proof.
  induction es as [ | e es IH]; intros w w' Hrun; cbn [runWhile] in Hrun.
  - injection Hrun as <-. auto.
  - destruct (targetNotMet w e) eqn:Hok; [ | discriminate].
    destruct (step w e) as [w1 | ] eqn:Hstep; [ | discriminate].
    destruct (targetNotMet_step w e w1 Hok Hstep) as (Hs & Hb & Hw & _).
    destruct (IH w1 w' Hrun) as (Hs' & Hb' & Hw').
    rewrite lastPolled_cons, <- Hb. repeat split; congruence.
Qed.

(** Outside ['waiting'] the intervals are gone: no tick, and the status and
    the countdown stay. *)
Lemma targetNotMet_run_stopped es : forall w w',
  status (ui w) <> waiting ->
  runWhile targetNotMet w es = Some w' ->
  countdownTicks es = 0 /\
  status (ui w') = status (ui w) /\
  timeLeft (ui w') = timeLeft (ui w).
Proof.
  induction es as [ | e es IH]; intros w w' Hstopped Hrun;
    cbn [runWhile] in Hrun.
  - injection Hrun as <-. auto.
  - destruct (targetNotMet w e) eqn:Hok; [ | discriminate].
    destruct (step w e) as [w1 | ] eqn:Hstep; [ | discriminate].
    destruct (targetNotMet_step w e w1 Hok Hstep) as (_ & _ & _ & Hcase).
    rewrite countdownTicks_cons.
    destruct (isCountdownTick e).
    + destruct Hcase as [Hactive _].
      apply timersActive_true in Hactive as [_ Hactive]. contradiction.
    + destruct Hcase as [Hst Htl].
      destruct (IH w1 w') as (Hn & Hst' & Htl'); [congruence | assumption | ].
      repeat split; [lia | congruence | congruence].
Qed.

(** In ['waiting'], the run has expired exactly when it holds as many
    countdown ticks as there were seconds left. *)
Lemma targetNotMet_run_countdown es : forall w w',
  status (ui w) = waiting ->
  0 < timeLeft (ui w) ->
  runWhile targetNotMet w es = Some w' ->
  (countdownTicks es < timeLeft (ui w) /\
   status (ui w') = waiting /\
   timeLeft (ui w') = timeLeft (ui w) - countdownTicks es) \/
  (countdownTicks es = timeLeft (ui w) /\
   status (ui w') = expired /\
   timeLeft (ui w') = 0).
Proof.
  induction es as [ | e es IH]; intros w w' Hwaiting Hleft Hrun.
  - injection Hrun as <-. left. unfold countdownTicks. cbn.
    repeat split; [assumption.. | lia].
  - cbn [runWhile] in Hrun.
    destruct (targetNotMet w e) eqn:Hok; [ | discriminate].
    destruct (step w e) as [w1 | ] eqn:Hstep; [ | discriminate].
    destruct (targetNotMet_step w e w1 Hok Hstep) as (_ & _ & _ & Hcase).
    rewrite countdownTicks_cons.
    destruct (isCountdownTick e).
    + destruct Hcase as (_ & Hst & Htl).
      destruct (Z.leb_spec (timeLeft (ui w)) 1) as [Hle | Hgt].
      * destruct (targetNotMet_run_stopped es w1 w') as (Hn & Hst' & Htl');
          [congruence | assumption | ].
        right. repeat split; [lia | congruence | congruence].
      * destruct (IH w1 w') as [(Hn & Hst' & Htl') | (Hn & Hst' & Htl')];
          [congruence | lia | assumption | left | right];
          repeat split; try assumption; lia.
    + destruct Hcase as [Hst Htl].
      destruct (IH w1 w') as [(Hn & Hst' & Htl') | (Hn & Hst' & Htl')];
        [congruence | lia | assumption | left | right];
        repeat split; try assumption; lia.
Qed.

(** C7.  Take a session in ['waiting'] with time left, and let the two
    intervals tick while no balance check passes the comparison with the
    target (each one fails or reads less).  Then no transfer is issued and
    [balance] holds the value of the last balance read (the one it had when
    no balance was read); before as many countdown ticks as seconds were
    left the session is still ['waiting'], there the countdown can tick
    again, and with that many ticks it is ['expired'] with [timeLeft = 0]. *)
Theorem countdown_expires_waiting_session
    (w : World) (es : list Event) (w' : World) :
  timersActive (ui w) = true ->
  0 < timeLeft (ui w) ->
  runWhile targetNotMet w es = Some w' ->
  sendCalls (calls w') = sendCalls (calls w) /\
  balance (ui w') = lastPolled (balance (ui w)) es /\
  (countdownTicks es < timeLeft (ui w) ->
   status (ui w') = waiting /\
   timeLeft (ui w') = timeLeft (ui w) - countdownTicks es /\
   exists w1, step w' CountdownTick = Some w1 /\
              balance (ui w1) = balance (ui w') /\
              calls w1 = calls w' /\
              (timeLeft (ui w') = 1 -> status (ui w1) = expired)) /\
  (timeLeft (ui w) <= countdownTicks es ->
   countdownTicks es = timeLeft (ui w) /\
   status (ui w') = expired /\
   timeLeft (ui w') = 0).
Proof.
  intros Hactive Hleft Hrun.
  apply timersActive_true in Hactive as [[wallet Hwallet] Hwaiting].
  destruct (targetNotMet_run_frame es w w' Hrun) as (Hs & Hb & Hw).
  pose proof (targetNotMet_run_countdown es w w' Hwaiting Hleft Hrun) as Hcount.
  split; [exact Hs | ]. split; [exact Hb | ]. split.
  - intros Hfew.
    destruct Hcount as [(_ & Hst & Htl) | (Hn & _)]; [ | lia].
    split; [exact Hst | ]. split; [exact Htl | ].
    assert (timersActive (ui w') = true) as Hactive'.
    { apply timersActive_true. split; [ | exact Hst].
      exists wallet. congruence. }
    exists (withUi countdownTick w'). unfold step. rewrite Hactive'.
    split; [reflexivity | ]. cbn. unfold countdownTick.
    destruct (Z.leb_spec (timeLeft (ui w')) 1); cbn;
      repeat split; auto; lia.
  - intros Hmany. destruct Hcount as [(Hn & _) | Hdone]; [lia | exact Hdone].
Qed.

(** ** Results that arrive late *)

Lemma timersActive_false s : status s <> waiting -> timersActive s = false.
Proof.
  intros Hs. unfold timersActive. destruct (tempWallet s); [ | reflexivity].
  destruct (Status_eqb (status s) waiting) eqn:Heq; [ | reflexivity].
  apply Status_eqb_eq in Heq. contradiction.
Qed.

(** C6, as the code has it.  Once the session is ['expired'], or was reset
    to ['setup'], neither interval ticks; a balance check that was in flight
    and fails, or does not pass the comparison with its target, leaves
    [status] as it is.  Nothing else guards a late result: a balance check
    in flight that passes the comparison sets [status] to ['forwarding']
    when the library builds the transfer, and to ['waiting'], with the
    message in [error], when the library throws on it; a forward in flight
    that fails sets [status] to ['waiting'], and one that is confirmed sets
    it to ['forwarded']. *)
Theorem late_results_after_expiry_or_reset (w : World) :
  reachable w ->
  status (ui w) = expired \/ status (ui w) = setup ->
  step w PollTick = None /\
  step w CountdownTick = None /\
  (forall id c, pending w !! id = Some (AwaitGetBalance c) ->
     (forall message, exists w',
        step w (GetBalanceDone id (Rejected message)) = Some w' /\
        status (ui w') = status (ui w)) /\
     (forall polled,
        num_ge (polled / LAMPORTS_PER_SOL)%float
               (parseFloat (c_amount c)) = false ->
        exists w',
          step w (GetBalanceDone id (Resolved polled)) = Some w' /\
          status (ui w') = status (ui w)) /\
     (forall polled,
        num_ge (polled / LAMPORTS_PER_SOL)%float
               (parseFloat (c_amount c)) = true ->
        (transferError (publicKey (c_tempWallet c)) (c_sellerAddress c)
           (polled - FEE_RESERVE)%float = None ->
         exists w',
           step w (GetBalanceDone id (Resolved polled)) = Some w' /\
           status (ui w') = forwarding) /\
        (forall message,
           transferError (publicKey (c_tempWallet c)) (c_sellerAddress c)
             (polled - FEE_RESERVE)%float = Some message ->
           exists w',
             step w (GetBalanceDone id (Resolved polled)) = Some w' /\
             status (ui w') = waiting /\
             error (ui w') =
               Some ("Failed to forward payment: " ++ message)%string))) /\
  (forall id c message, pending w !! id = Some (AwaitSendTransaction c) ->
     exists w',
       step w (SendTransactionDone id (Rejected message)) = Some w' /\
       status (ui w') = waiting) /\
  (forall id c signature,
     pending w !! id = Some (AwaitConfirmTransaction c signature) ->
     (forall message, exists w',
        step w (ConfirmTransactionDone id (Rejected message)) = Some w' /\
        status (ui w') = waiting) /\
     (exists w',
        step w (ConfirmTransactionDone id (Resolved tt)) = Some w' /\
        status (ui w') = forwarded)).
Proof.
  intros Hreach Hstatus.
  assert (timersActive (ui w) = false) as Hoff.
  { apply timersActive_false. destruct Hstatus; congruence. }
  split; [unfold step; now rewrite Hoff | ].
  split; [unfold step; now rewrite Hoff | ].
  split; [ | split].
  - intros id c Ht. split; [ | split].
    + intros message. eexists. split; [unfold step; now rewrite Ht | ].
      reflexivity.
    + intros polled Hge. eexists.
      split; [exact (gotBalance_not_met w id c polled Ht Hge) | reflexivity].
    + intros polled Hge.
      pose proof (tasks_validated w (reachable_consistent w Hreach) _ _ Ht)
        as [Hkey _].
      split.
      * intros Hbuilt.
        destruct (gotBalance_meets w id c polled Hkey Hbuilt Ht Hge)
          as (w' & Hstep & Hui & _).
        exists w'. now rewrite Hui.
      * intros message Hthrown. eexists.
        split; [exact (gotBalance_not_built w id c polled message
                         Hkey Hthrown Ht Hge) | ].
        cbn. auto.
  - intros id c message Ht. eexists.
    split; [unfold step; now rewrite Ht | reflexivity].
  - intros id c signature Ht. split; [intros message | ]; eexists;
      (split; [unfold step; now rewrite Ht | reflexivity]).
Qed.

(** ** The keypair *)

(** C8, as the code has it.  A step that ends in ['forwarded'] or
    ['expired'] leaves [tempWallet], and with it the secret key, as it was;
    the keypair leaves the state with [resetFlow], which sets [tempWallet]
    to null, or is replaced by the next start. *)
Theorem keypair_kept_until_reset (w : World) (e : Event) (w' : World) :
  step w e = Some w' ->
  (status (ui w') = forwarded \/ status (ui w') = expired ->
   tempWallet (ui w') = tempWallet (ui w)) /\
  (e = ClickReset -> tempWallet (ui w') = None /\ status (ui w') = setup) /\
  (tempWallet (ui w') <> tempWallet (ui w) ->
   e = ClickReset \/ exists generated, e = ClickStart generated).
Proof.
  intros Hstep.
  assert (e <> ClickReset -> tempWallet (ui w') = tempWallet (ui w) ->
          (status (ui w') = forwarded \/ status (ui w') = expired ->
           tempWallet (ui w') = tempWallet (ui w)) /\
          (e = ClickReset ->
           tempWallet (ui w') = None /\ status (ui w') = setup) /\
          (tempWallet (ui w') <> tempWallet (ui w) ->
           e = ClickReset \/ exists generated, e = ClickStart generated))
    as Hkept.
  { intros He Hsame. split; [auto | split; [contradiction | ] ].
    intros Hne. contradiction. }
  destruct e; unfold step in Hstep.
  - destruct (Status_eqb (status (ui w)) setup) eqn:Hsetup; [ | discriminate].
    apply Status_eqb_eq in Hsetup. injection Hstep as <-.
    unfold startPaymentFlow. cbn.
    destruct (validateAddress (sellerAddress (ui w))); cbn;
      [destruct (validateAmount (amount (ui w))); cbn | ];
      (split; [ | split; [discriminate | eauto] ]);
      rewrite ?Hsetup; intros [? | ?]; discriminate.
  - destruct (status (ui w)); try discriminate; injection Hstep as <-; cbn;
      (split; [ | split]); auto; intros [? | ?]; discriminate.
  - destruct (Status_eqb (status (ui w)) setup); [ | discriminate].
    injection Hstep as <-. apply Hkept; [discriminate | reflexivity].
  - destruct (Status_eqb (status (ui w)) setup); [ | discriminate].
    injection Hstep as <-. apply Hkept; [discriminate | reflexivity].
  - destruct (timersActive (ui w)); [ | discriminate].
    injection Hstep as <-. apply Hkept; [discriminate | ].
    cbn. unfold countdownTick. now destruct (timeLeft (ui w) <=? 1).
  - destruct (timersActive (ui w)); [ | discriminate].
    injection Hstep as <-. apply Hkept; [discriminate | ].
    unfold checkBalance_start.
    destruct (tempWallet (ui w)) eqn:Hwallet; cbn; congruence.
  - destruct (pending w !! task) as [[c | c | c sig] | ]; try discriminate.
    injection Hstep as <-. apply Hkept; [discriminate | ].
    unfold checkBalance_gotBalance.
    destruct r as [polled | message];
      [destruct (num_ge _ _);
       [destruct (publicKeyError (c_sellerAddress c));
        [ | destruct (transferError _ _ _)] | ] | ]; reflexivity.
  - destruct (pending w !! task) as [[c | c | c sig] | ]; try discriminate.
    injection Hstep as <-. apply Hkept; [discriminate | ].
    unfold checkBalance_sent. now destruct r.
  - destruct (pending w !! task) as [[c | c | c sig] | ]; try discriminate.
    injection Hstep as <-. apply Hkept; [discriminate | ].
    unfold checkBalance_confirmed. now destruct r.
Qed.

(** ** The error message *)

(** C9, as the code has it.  A start that passes validation enters
    ['waiting'] with [error] null, and so does a reset into ['setup'].  The
    step into ['forwarding'] (a balance check that passes the comparison and
    whose transfer the library builds) and the step into ['forwarded'] do
    not call [setError]: [error] is what it was before.  When the library
    throws on the transfer, the same balance check ends in ['waiting'] and
    [error] is replaced by the message of the failed forward. *)
Theorem error_cleared_by_start_only (w : World) :
  (forall generated,
     status (ui w) = setup ->
     validInputs (sellerAddress (ui w)) (amount (ui w)) ->
     exists w',
       step w (ClickStart generated) = Some w' /\
       status (ui w') = waiting /\
       error (ui w') = None) /\
  (forall id c polled,
     reachable w ->
     pending w !! id = Some (AwaitGetBalance c) ->
     num_ge (polled / LAMPORTS_PER_SOL)%float
            (parseFloat (c_amount c)) = true ->
     (transferError (publicKey (c_tempWallet c)) (c_sellerAddress c)
        (polled - FEE_RESERVE)%float = None ->
      exists w',
        step w (GetBalanceDone id (Resolved polled)) = Some w' /\
        status (ui w') = forwarding /\
        error (ui w') = error (ui w)) /\
     (forall message,
        transferError (publicKey (c_tempWallet c)) (c_sellerAddress c)
          (polled - FEE_RESERVE)%float = Some message ->
        exists w',
          step w (GetBalanceDone id (Resolved polled)) = Some w' /\
          status (ui w') = waiting /\
          error (ui w') =
            Some ("Failed to forward payment: " ++ message)%string)) /\
  (forall id c signature,
     pending w !! id = Some (AwaitConfirmTransaction c signature) ->
     exists w',
       step w (ConfirmTransactionDone id (Resolved tt)) = Some w' /\
       status (ui w') = forwarded /\
       txSignature (ui w') = Some signature /\
       error (ui w') = error (ui w)) /\
  (status (ui w) = forwarded \/ status (ui w) = expired ->
   exists w',
     step w ClickReset = Some w' /\
     status (ui w') = setup /\
     error (ui w') = None).
Proof.
  split; [ | split; [ | split] ].
  - intros generated Hsetup [Hkey Hamount]. eexists. split.
    + unfold step. rewrite Hsetup. cbn [Status_eqb]. reflexivity.
    + unfold startPaymentFlow. cbn.
      apply validateAddress_true in Hkey. rewrite Hkey, Hamount. cbn. auto.
  - intros id c polled Hreach Ht Hge.
    pose proof (tasks_validated w (reachable_consistent w Hreach) _ _ Ht)
      as [Hkey _].
    split.
    + intros Hbuilt.
      destruct (gotBalance_meets w id c polled Hkey Hbuilt Ht Hge)
        as (w' & Hstep & Hui & _).
      exists w'. rewrite Hui. auto.
    + intros message Hthrown. eexists.
      split; [exact (gotBalance_not_built w id c polled message
                       Hkey Hthrown Ht Hge) | ].
      cbn. auto.
  - intros id c signature Ht. eexists.
    split; [unfold step; now rewrite Ht | ]. cbn. auto.
  - intros Hterminal. exists (withUi resetFlow w).
    split; [ | cbn; auto].
    unfold step. destruct Hterminal as [-> | ->]; reflexivity.
Qed.

(** ** Overlapping balance checks *)

Lemma getBalanceCalls_app l l' :
  getBalanceCalls (l ++ l') = getBalanceCalls l ++ getBalanceCalls l'.
Proof. apply List.filter_app. Qed.

Lemma next_task_fresh w : consistent w -> pending w !! nextTask w = None.
Proof.
  intros Hw. destruct (pending w !! nextTask w) as [t | ] eqn:Ht;
    [ | reflexivity].
  pose proof (tasks_below_next w Hw _ _ Ht). lia.
Qed.

Lemma awaiting_insert_new (m : gmap nat Task) id c :
  m !! id = None ->
  size (filter awaitsBalance (<[id := AwaitGetBalance c]> m)) =
  S (size (filter awaitsBalance m)).
Proof.
  intros Hfresh. rewrite map_filter_insert_True by exact I.
  apply map_size_insert_None, map_lookup_filter_None. now left.
Qed.

Lemma awaiting_delete (m : gmap nat Task) id c :
  m !! id = Some (AwaitGetBalance c) ->
  S (size (filter awaitsBalance (delete id m))) =
  size (filter awaitsBalance m).
Proof.
  intros Ht. rewrite map_filter_delete.
  assert (filter awaitsBalance m !! id = Some (AwaitGetBalance c)) as Hin
    by (now apply map_lookup_filter_Some).
  rewrite map_size_delete, Hin.
  destruct (size (filter awaitsBalance m)) eqn:Hsize; [ | reflexivity].
  apply map_size_empty_inv in Hsize. rewrite Hsize, lookup_empty in Hin.
  discriminate.
Qed.

Lemma awaiting_forwarded (m : gmap nat Task) id c t :
  m !! id = Some (AwaitGetBalance c) ->
  ~ awaitsBalance (id, t) ->
  S (size (filter awaitsBalance (<[id := t]> m))) =
  size (filter awaitsBalance m).
Proof.
  intros Ht Hnot. rewrite map_filter_insert_False by exact Hnot.
  now apply awaiting_delete with c.
Qed.

Lemma awaiting_delete_other (m : gmap nat Task) id t :
  m !! id = Some t -> ~ awaitsBalance (id, t) ->
  filter awaitsBalance (delete id m) = filter awaitsBalance m.
Proof.
  intros Ht Hnot. apply map_filter_delete_not. intros t' Ht'. congruence.
Qed.

Lemma awaiting_insert_other (m : gmap nat Task) id t t' :
  m !! id = Some t -> ~ awaitsBalance (id, t) -> ~ awaitsBalance (id, t') ->
  filter awaitsBalance (<[id := t']> m) = filter awaitsBalance m.
Proof.
  intros Ht Hnot Hnot'. apply map_filter_insert_not'; [exact Hnot' | ].
  intros t'' Ht''. congruence.
Qed.

Lemma oneForwardPerCheck_step w e w' :
  consistent w -> step w e = Some w' ->
  oneForwardPerCheck w -> oneForwardPerCheck w'.
Proof.
  unfold oneForwardPerCheck, checksAwaitingBalance, sendCalls,
    getBalanceCalls.
  intros Hw Hstep Hinv. destruct e; unfold step in Hstep.
  - destruct (Status_eqb (status (ui w)) setup); [ | discriminate].
    injection Hstep as <-. unfold startPaymentFlow. cbn.
    destruct (validateAddress (sellerAddress (ui w))); cbn; [ | exact Hinv].
    destruct (validateAmount (amount (ui w))); cbn; [exact Hinv | ].
    rewrite !List.filter_app. cbn.
    rewrite !app_nil_r. exact Hinv.
  - destruct (status (ui w)); try discriminate; injection Hstep as <-;
      exact Hinv.
  - destruct (Status_eqb (status (ui w)) setup); [ | discriminate].
    injection Hstep as <-. exact Hinv.
  - destruct (Status_eqb (status (ui w)) setup); [ | discriminate].
    injection Hstep as <-. exact Hinv.
  - destruct (timersActive (ui w)); [ | discriminate].
    injection Hstep as <-. exact Hinv.
  - destruct (timersActive (ui w)); [ | discriminate].
    injection Hstep as <-. unfold checkBalance_start.
    destruct (tempWallet (ui w)) as [wallet | ]; [ | exact Hinv]. cbn.
    rewrite !List.filter_app. cbn.
    rewrite app_nil_r, length_app. cbn.
    rewrite awaiting_insert_new by now apply next_task_fresh. lia.
  - destruct (pending w !! task) as [[c | c | c sig] | ] eqn:Ht;
      try discriminate.
    injection Hstep as <-. unfold checkBalance_gotBalance.
    pose proof (awaiting_delete (pending w) task c Ht) as Hdel.
    destruct r as [polled | message]; [ | cbn; lia].
    destruct (num_ge _ _); [ | cbn; lia].
    destruct (publicKeyError (c_sellerAddress c)); [cbn; lia | ].
    destruct (transferError _ _ _); [cbn; lia | ]. cbn.
    pose proof (awaiting_forwarded (pending w) task c
                  (AwaitSendTransaction c) Ht (fun H => H)) as Hfwd.
    rewrite !List.filter_app. cbn.
    rewrite app_nil_r, length_app. cbn. lia.
  - destruct (pending w !! task) as [[c | c | c sig] | ] eqn:Ht;
      try discriminate.
    injection Hstep as <-. unfold checkBalance_sent.
    destruct r as [signature | message]; cbn.
    + rewrite !List.filter_app. cbn. rewrite !app_nil_r.
      rewrite (awaiting_insert_other (pending w) task _ _ Ht);
        [exact Hinv | exact (fun H => H) | exact (fun H => H)].
    + rewrite (awaiting_delete_other (pending w) task _ Ht);
        [exact Hinv | exact (fun H => H)].
  - destruct (pending w !! task) as [[c | c | c sig] | ] eqn:Ht;
      try discriminate.
    injection Hstep as <-. unfold checkBalance_confirmed.
    destruct r as [u | message]; cbn;
      (rewrite (awaiting_delete_other (pending w) task _ Ht);
        [exact Hinv | exact (fun H => H)]).
Qed.

Lemma reachable_oneForwardPerCheck w : reachable w -> oneForwardPerCheck w.
Proof.
  induction 1 as [ | w e w' Hreach IH Hstep].
  - unfold oneForwardPerCheck, checksAwaitingBalance. cbn.
    rewrite map_filter_empty, map_size_empty. lia.
  - eapply oneForwardPerCheck_step; eauto using reachable_consistent.
Qed.

(** A check whose balance has arrived is never again waiting for its
    balance: a task only moves on or ends, and a new check takes a new
    identifier. *)
Lemma balance_arrived_step w e w' id :
  step w e = Some w' ->
  (id < nextTask w)%nat ->
  (forall c, pending w !! id <> Some (AwaitGetBalance c)) ->
  (id < nextTask w')%nat /\
  (forall c, pending w' !! id <> Some (AwaitGetBalance c)).
Proof.
  intros Hstep Hold Hnot.
  assert (forall task, (id < nextTask (finish task w))%nat /\
            forall c, pending (finish task w) !! id <>
                      Some (AwaitGetBalance c)) as Hfinish.
  { intros task. split; [exact Hold | ]. intros c. cbn.
    destruct (decide (task = id)) as [-> | Hne].
    - now rewrite lookup_delete_eq.
    - rewrite lookup_delete_ne by exact Hne. apply Hnot. }
  assert (forall task t, (forall c, t <> AwaitGetBalance c) ->
            (id < nextTask (suspend task t w))%nat /\
            forall c, pending (suspend task t w) !! id <>
                      Some (AwaitGetBalance c)) as Hsuspend.
  { intros task t Ht. split; [exact Hold | ]. intros c. cbn.
    destruct (decide (task = id)) as [-> | Hne].
    - rewrite lookup_insert_eq. intros [= Heq]. now apply (Ht c).
    - rewrite lookup_insert_ne by exact Hne. apply Hnot. }
  destruct e; unfold step in Hstep.
  - destruct (Status_eqb (status (ui w)) setup); [ | discriminate].
    injection Hstep as <-. unfold startPaymentFlow. cbn.
    destruct (validateAddress (sellerAddress (ui w))); cbn; [ | now split].
    destruct (validateAmount (amount (ui w))); cbn; now split.
  - destruct (status (ui w)); try discriminate; injection Hstep as <-;
      now split.
  - destruct (Status_eqb (status (ui w)) setup); [ | discriminate].
    injection Hstep as <-. now split.
  - destruct (Status_eqb (status (ui w)) setup); [ | discriminate].
    injection Hstep as <-. now split.
  - destruct (timersActive (ui w)); [ | discriminate].
    injection Hstep as <-. now split.
  - destruct (timersActive (ui w)); [ | discriminate].
    injection Hstep as <-. unfold checkBalance_start.
    destruct (tempWallet (ui w)) as [wallet | ]; [ | now split]. cbn.
    split; [lia | ]. intros c.
    rewrite lookup_insert_ne by lia. apply Hnot.
  - destruct (pending w !! task) as [[c | c | c sig] | ] eqn:Ht;
      try discriminate.
    injection Hstep as <-. unfold checkBalance_gotBalance.
    destruct r as [polled | message]; [ | apply Hfinish].
    destruct (num_ge _ _); [ | apply Hfinish].
    destruct (publicKeyError (c_sellerAddress c)); [apply Hfinish | ].
    destruct (transferError _ _ _); [apply Hfinish | ].
    apply (Hsuspend task (AwaitSendTransaction c)). discriminate.
  - destruct (pending w !! task) as [[c | c | c sig] | ] eqn:Ht;
      try discriminate.
    injection Hstep as <-. unfold checkBalance_sent.
    destruct r as [signature | message]; [ | apply Hfinish].
    apply (Hsuspend task (AwaitConfirmTransaction c signature)).
    discriminate.
  - destruct (pending w !! task) as [[c | c | c sig] | ] eqn:Ht;
      try discriminate.
    injection Hstep as <-. unfold checkBalance_confirmed.
    destruct r as [u | message]; apply Hfinish.
Qed.

Lemma balance_arrived_run es : forall w w' id,
  run w es = Some w' ->
  (id < nextTask w)%nat ->
  (forall c, pending w !! id <> Some (AwaitGetBalance c)) ->
  forall c, pending w' !! id <> Some (AwaitGetBalance c).
Proof.
  induction es as [ | e es IH]; intros w w' id Hrun Hold Hnot;
    cbn in Hrun.
  - injection Hrun as <-. exact Hnot.
  - destruct (step w e) as [w1 | ] eqn:Hstep; [ | discriminate].
    destruct (balance_arrived_step w e w1 id Hstep Hold Hnot)
      as [Hold1 Hnot1].
    exact (IH w1 w' id Hrun Hold1 Hnot1).
Qed.

(** The step that delivers the balance of a check takes the check out of
    the checks that wait for their balance. *)
Lemma balance_delivered w id r w' :
  consistent w ->
  step w (GetBalanceDone id r) = Some w' ->
  (id < nextTask w')%nat /\
  (forall c, pending w' !! id <> Some (AwaitGetBalance c)).
Proof.
  intros Hw Hstep. unfold step in Hstep.
  destruct (pending w !! id) as [[c | c | c sig] | ] eqn:Ht;
    try discriminate.
  pose proof (tasks_below_next w Hw _ _ Ht) as Hold.
  injection Hstep as <-. unfold checkBalance_gotBalance.
  assert ((id < nextTask (finish id w))%nat /\
          forall c', pending (finish id w) !! id <>
                     Some (AwaitGetBalance c')) as Hfinish.
  { split; [exact Hold | ]. intros c'. cbn. now rewrite lookup_delete_eq. }
  destruct r as [polled | message]; [ | exact Hfinish].
  destruct (num_ge _ _); [ | exact Hfinish].
  destruct (publicKeyError (c_sellerAddress c)); [exact Hfinish | ].
  destruct (transferError _ _ _); [exact Hfinish | ].
  split; [exact Hold | ]. intros c'. cbn. now rewrite lookup_insert_eq.
Qed.

(** C5, as the code has it.  A poll tick starts a balance check exactly when
    there is a wallet and [status] is ['waiting']: none starts in any other
    status, ['forwarding'] included, and none starts without a wallet.
    Nothing else holds a tick back: in ['waiting'] with a wallet the tick
    starts a new check next to the checks that are still in flight, which
    all stay in flight, and every check in flight that reads a balance [>=]
    its target, and whose transfer the library builds, issues a transfer of
    its own, whatever the status and the other checks.  Each balance check
    issues at most one transfer: a step adds a transfer to the ones issued
    only when it delivers the balance of a check that waits for it, and then
    exactly one; once the balance of a check has been delivered, no balance
    is delivered to that check again, whatever happens next; and the
    transfers issued and the checks still waiting for their balance are
    together no more than the balance checks started. *)
Theorem poll_ticks_start_checks_while_waiting (w : World) :
  reachable w ->
  (status (ui w) <> waiting -> step w PollTick = None) /\
  (tempWallet (ui w) = None -> step w PollTick = None) /\
  (forall wallet,
     tempWallet (ui w) = Some wallet ->
     status (ui w) = waiting ->
     exists w',
       step w PollTick = Some w' /\
       ui w' = ui w /\
       calls w' = calls w ++ [GetBalance (publicKey wallet)] /\
       pending w !! nextTask w = None /\
       pending w' =
         <[nextTask w := AwaitGetBalance
             (mkClosure wallet (sellerAddress (ui w)) (amount (ui w)))]>
           (pending w)) /\
  (forall id c polled,
     pending w !! id = Some (AwaitGetBalance c) ->
     num_ge (polled / LAMPORTS_PER_SOL)%float
            (parseFloat (c_amount c)) = true ->
     transferError (publicKey (c_tempWallet c)) (c_sellerAddress c)
       (polled - FEE_RESERVE)%float = None ->
     exists w',
       step w (GetBalanceDone id (Resolved polled)) = Some w' /\
       sendCalls (calls w') = sendCalls (calls w) ++
         [SendTransaction (publicKey (c_tempWallet c)) (c_sellerAddress c)
            (polled - FEE_RESERVE)%float]) /\
  (forall e w',
     step w e = Some w' ->
     sendCalls (calls w') = sendCalls (calls w) \/
     exists id c polled,
       e = GetBalanceDone id (Resolved polled) /\
       pending w !! id = Some (AwaitGetBalance c) /\
       sendCalls (calls w') = sendCalls (calls w) ++
         [SendTransaction (publicKey (c_tempWallet c)) (c_sellerAddress c)
            (polled - FEE_RESERVE)%float]) /\
  (forall id r w1 es w2 r',
     step w (GetBalanceDone id r) = Some w1 ->
     run w1 es = Some w2 ->
     step w2 (GetBalanceDone id r') = None) /\
  (length (sendCalls (calls w)) + checksAwaitingBalance w <=
   length (getBalanceCalls (calls w)))%nat.
Proof.
  intros Hreach.
  split; [ | split; [ | split; [ | split; [ | split; [ | split] ] ] ] ].
  - intros Hstatus. unfold step. now rewrite timersActive_false.
  - intros Hnone. unfold step, timersActive. now rewrite Hnone.
  - intros wallet Hwallet Hwaiting.
    assert (timersActive (ui w) = true) as Hactive
      by (apply timersActive_true; eauto).
    eexists.
    split; [unfold step; rewrite Hactive; reflexivity | ].
    unfold checkBalance_start. rewrite Hwallet. cbn.
    repeat split. apply next_task_fresh. now apply reachable_consistent.
  - intros id c polled Ht Hge Hbuilt.
    pose proof (tasks_validated w (reachable_consistent w Hreach) _ _ Ht)
      as [Hkey _].
    destruct (gotBalance_meets w id c polled Hkey Hbuilt Ht Hge)
      as (w' & Hstep & _ & Hcalls & _).
    exists w'. rewrite Hcalls, sendCalls_app. auto.
  - intros e w' Hstep.
    destruct (step_calls w e w' Hstep) as [Hsame | (call & Hcall & Hsend)];
      [left; now rewrite Hsame | ].
    rewrite Hcall, sendCalls_app.
    destruct call as [ | key | fromPubkey toPubkey lamports | signature];
      try (left; cbn; now rewrite app_nil_r).
    right.
    destruct (Hsend eq_refl) as (id & c & polled & He & Ht & _ & Hc & _).
    injection Hc as -> -> ->. exists id, c, polled. auto.
  - intros id r w1 es w2 r' Hstep Hrun.
    destruct (balance_delivered w id r w1 (reachable_consistent w Hreach)
                Hstep) as [Hold Hnot].
    pose proof (balance_arrived_run es w1 w2 id Hrun Hold Hnot) as Hnever.
    unfold step.
    destruct (pending w2 !! id) as [[c | c | c sig] | ] eqn:Ht;
      try reflexivity.
    now destruct (Hnever c).
  - now apply reachable_oneForwardPerCheck.
Qed.

(** ** The first revision is an instance *)

(** X16.  With the form left at the seller's address and an amount that
    reads as 0.05, the second revision starts and checks as the first one
    does: [checkBalance] takes the same path with the same effects, and
    [startPaymentFlow] leaves what [generateNewWallet] leaves, with the two
    field errors cleared. *)
Lemma fixed_seller_instance id c r w generated :
  c_sellerAddress c = SELLER_ADDRESS ->
  c_amount c = "0.05" ->
  parseFloat "0.05" = REQUIRED_AMOUNT ->
  checkBalance_gotBalance id c r w =
    checkBalance_gotBalance_fixed id (c_tempWallet c) r w /\
  (validInputs (sellerAddress (ui w)) (amount (ui w)) ->
   ui (startPaymentFlow generated w) =
     setAmountError None
       (setAddressError None (ui (generateNewWallet generated w))) /\
   calls (startPaymentFlow generated w) =
     calls (generateNewWallet generated w)).
Proof.
  intros Hseller Hamount Hparse. split.
  - unfold checkBalance_gotBalance, checkBalance_gotBalance_fixed.
    destruct c as [wallet seller amount]. cbn in *. subst seller amount.
    now rewrite Hparse.
  - intros [Hkey Hvalid]. apply validateAddress_true in Hkey.
    unfold startPaymentFlow, generateNewWallet. cbn.
    rewrite Hkey, Hvalid. cbn. now split.
Qed.

(** * More of the component *)

(** ** The steps as rules *)

Lemma step_transition w e w' : step w e = Some w' -> transition w e w'.
Proof.
  intros Hstep. destruct e as [g | | v | v | | | id r | id r | id r];
    unfold step in Hstep.
  - destruct (Status_eqb (status (ui w)) setup) eqn:Hsetup; [ | discriminate].
    apply Status_eqb_eq in Hsetup. injection Hstep as <-.
    unfold startPaymentFlow. cbn.
    destruct (validateAddress (sellerAddress (ui w))) eqn:Ha; cbn.
    + destruct (validateAmount (amount (ui w))) as [message | ] eqn:Hm.
      * now apply start_amount_rejected.
      * apply (start_accepted w g Hsetup). split; [ | exact Hm].
        now apply validateAddress_true.
    + now apply start_address_rejected.
  - destruct (status (ui w)) eqn:Hstatus; try discriminate;
      injection Hstep as <-; apply reset_clicked; auto.
  - destruct (Status_eqb (status (ui w)) setup) eqn:Hsetup; [ | discriminate].
    apply Status_eqb_eq in Hsetup. injection Hstep as <-.
    now apply seller_changed.
  - destruct (Status_eqb (status (ui w)) setup) eqn:Hsetup; [ | discriminate].
    apply Status_eqb_eq in Hsetup. injection Hstep as <-.
    now apply amount_changed.
  - destruct (timersActive (ui w)) eqn:Hactive; [ | discriminate].
    injection Hstep as <-. now apply countdown_ticked.
  - destruct (timersActive (ui w)) eqn:Hactive; [ | discriminate].
    injection Hstep as <-.
    apply timersActive_true in Hactive as [[wallet Hwallet] Hwaiting].
    unfold checkBalance_start. rewrite Hwallet.
    eapply poll_ticked; eassumption.
  - destruct (pending w !! id) as [[c | c | c sig] | ] eqn:Ht; try discriminate.
    injection Hstep as <-. unfold checkBalance_gotBalance.
    destruct r as [polled | message]; [ | eapply balance_rejected; eassumption].
    destruct (num_ge _ _) eqn:Hge; [ | eapply balance_below; eassumption].
    destruct (publicKeyError (c_sellerAddress c)) as [message | ] eqn:Hkey.
    + eapply balance_met_bad_key; eassumption.
    + destruct (transferError _ _ _) as [message | ] eqn:Hbuilt.
      * eapply balance_met_bad_transfer; eassumption.
      * eapply balance_met; eassumption.
  - destruct (pending w !! id) as [[c | c | c sig] | ] eqn:Ht; try discriminate.
    injection Hstep as <-. unfold checkBalance_sent.
    destruct r as [signature | message].
    + eapply send_resolved; eassumption.
    + eapply send_rejected; eassumption.
  - destruct (pending w !! id) as [[c | c | c sig] | ] eqn:Ht; try discriminate.
    injection Hstep as <-. unfold checkBalance_confirmed.
    destruct r as [u | message].
    + eapply confirm_resolved; eassumption.
    + eapply confirm_rejected; eassumption.
Qed.

Lemma transition_step w e w' : transition w e w' -> step w e = Some w'.
Proof.
  intros Ht. destruct Ht; unfold step;
    rewrite ?H, ?H0; cbn [Status_eqb]; try reflexivity.
  - unfold startPaymentFlow. cbn. now rewrite H0.
  - unfold startPaymentFlow. cbn. now rewrite H0, H1.
  - destruct H0 as [Hkey Hamount]. apply validateAddress_true in Hkey.
    unfold startPaymentFlow. cbn. now rewrite Hkey, Hamount.
  - destruct H as [-> | ->]; reflexivity.
  - assert (timersActive (ui w) = true) as ->
        by (apply timersActive_true; eauto).
    unfold checkBalance_start. now rewrite H.
  - unfold checkBalance_gotBalance. now rewrite H0.
  - unfold checkBalance_gotBalance. now rewrite H0, H1.
  - unfold checkBalance_gotBalance. now rewrite H0, H1, H2.
  - unfold checkBalance_gotBalance. now rewrite H0, H1, H2.
Qed.

(** ** Invariants of the reachable worlds *)

Lemma reachable_invariant (P : World -> Prop) :
  P initialWorld ->
  (forall w e w',
     reachable w -> consistent w -> P w -> transition w e w' -> P w') ->
  forall w, reachable w -> P w.
Proof.
  intros Hinit Hstep w Hreach.
  induction Hreach as [ | w e w' Hreach IH Hs]; [exact Hinit | ].
  eapply Hstep; eauto using reachable_consistent, step_transition.
Qed.

Lemma countdownTick_status s :
  status (countdownTick s) = expired \/
  status (countdownTick s) = status s.
Proof.
  unfold countdownTick. destruct (timeLeft s <=? 1); cbn; auto.
Qed.

Lemma reachable_not_received w : reachable w -> status (ui w) <> received.
Proof.
  revert w. apply reachable_invariant; [discriminate | ].
  intros w e w' _ _ IH Ht.
  destruct Ht; cbn; try discriminate; try exact IH.
  destruct (countdownTick_status (ui w)) as [-> | ->];
    [discriminate | exact IH].
Qed.

Lemma reachable_timeLeft w :
  reachable w ->
  0 <= timeLeft (ui w) <= PAYMENT_WINDOW /\
  (status (ui w) = expired -> timeLeft (ui w) = 0).
Proof.
  revert w. apply reachable_invariant.
  { cbn. split; [unfold PAYMENT_WINDOW; lia | discriminate]. }
  intros w e w' _ _ [Hrange Hexpired] Ht.
  destruct Ht as [ | | | | | | Hactive | | | | | | | | | | ]; cbn;
    try (split; [exact Hrange | first [discriminate | exact Hexpired] ]).
  - split; [unfold PAYMENT_WINDOW; lia | discriminate].
  - apply timersActive_true in Hactive as [_ Hwaiting].
    unfold countdownTick.
    destruct (Z.leb_spec (timeLeft (ui w)) 1); cbn;
      (split; [unfold PAYMENT_WINDOW in *; lia | ]);
      [reflexivity | congruence].
Qed.

(** X1.  ['received'] is set and overwritten in the same segment of
    [checkBalance]: no world the component can be in has that status, and
    where the status label is rendered (the main content) it is one of
    three, each with a colour of its own. *)
Theorem status_never_received (w : World) :
  reachable w ->
  status (ui w) <> received /\
  (view (ui w) = MainContent ->
   (status (ui w) = waiting /\
    getStatusText (statusString (status (ui w))) = "Waiting for Payment" /\
    getStatusColor (statusString (status (ui w))) = "bg-yellow-400") \/
   (status (ui w) = forwarded /\
    getStatusText (statusString (status (ui w))) = "Payment Complete" /\
    getStatusColor (statusString (status (ui w))) = "bg-green-400") \/
   (status (ui w) = expired /\
    getStatusText (statusString (status (ui w))) = "Payment Expired" /\
    getStatusColor (statusString (status (ui w))) = "bg-red-400")).
Proof.
  intros Hreach. pose proof (reachable_not_received w Hreach) as Hnot.
  split; [exact Hnot | ]. unfold view.
  destruct (status (ui w)); try discriminate; try contradiction; intros _.
  - left. repeat split.
  - right. left. repeat split.
  - right. right. repeat split.
Qed.

(** X2.  The countdown stays between 0 and [PAYMENT_WINDOW], and it is 0
    whenever the status is ['expired']. *)
Theorem timeLeft_in_window (w : World) :
  reachable w ->
  0 <= timeLeft (ui w) <= PAYMENT_WINDOW /\
  (status (ui w) = expired -> timeLeft (ui w) = 0).
Proof. exact (reachable_timeLeft w). Qed.

Lemma signaturesConfirmed_step w e w' :
  signaturesConfirmed w -> transition w e w' -> signaturesConfirmed w'.
Proof.
  intros (Hsig & Htask & Hdone) Ht.
  assert (forall call signature,
            In (ConfirmTransaction signature) (calls w) ->
            In (ConfirmTransaction signature) (calls w ++ [call])) as Hgrow.
  { intros call signature Hin. apply in_app_iff. now left. }
  destruct Ht as [ | | | | | | | | | | | | | | | | id c signature u Hpending];
    (split; [ | split]); cbn;
    try discriminate; try exact Hsig; try exact Htask; try exact Hdone;
    try (intros id' c' signature' Hlookup;
         apply lookup_delete_Some in Hlookup as [_ Hlookup]; now eauto);
    try (intros; now eauto);
    try (intros id' c' signature' Hlookup;
         apply lookup_insert_Some in Hlookup as [[_ Heq] | [_ Hlookup] ];
         [discriminate | now eauto]).
  - unfold countdownTick. now destruct (timeLeft (ui w) <=? 1).
  - unfold countdownTick. destruct (timeLeft (ui w) <=? 1); cbn;
      [discriminate | exact Hdone].
  - intros id' c' signature' Hlookup. apply in_app_iff.
    apply lookup_insert_Some in Hlookup as [[_ Heq] | [_ Hlookup] ].
    + injection Heq as <- <-. right. now left.
    + left. eauto.
  - intros signature' [= <-]. eauto.
Qed.

Lemma reachable_signaturesConfirmed w : reachable w -> signaturesConfirmed w.
Proof.
  revert w. apply reachable_invariant.
  - repeat split; cbn; discriminate.
  - intros w e w' _ _ IH Ht. now apply (signaturesConfirmed_step w e).
Qed.

(** X3.  Whenever the status is ['forwarded'], [txSignature] holds a
    signature, and that signature was handed to [confirmTransaction]. *)
Theorem forwarded_has_confirmed_signature (w : World) :
  reachable w ->
  status (ui w) = forwarded ->
  exists signature,
    txSignature (ui w) = Some signature /\
    In (ConfirmTransaction signature) (calls w).
Proof.
  intros Hreach Hforwarded.
  destruct (reachable_signaturesConfirmed w Hreach) as (Hsig & _ & Hdone).
  destruct (txSignature (ui w)) as [signature | ] eqn:Htx.
  - exists signature. auto.
  - now elim (Hdone Hforwarded).
Qed.

(** X4.  Every transfer in the call log goes to an address that
    [new PublicKey] accepts, and its amount is some balance minus the
    reserve, where that balance met a target that passed
    [validateAmount]. *)
Theorem transfers_justified (w : World) (call : Call) :
  reachable w -> In call (calls w) -> transferJustified call.
Proof.
  intros Hreach. revert call. revert w Hreach.
  apply (reachable_invariant
           (fun w => forall call, In call (calls w) -> transferJustified call)).
  { intros call []. }
  intros w e w' _ Hw IH Ht call Hin.
  destruct Ht; cbn in Hin; try (now apply IH);
    apply in_app_iff in Hin as [Hin | [<- | [] ] ]; try (now apply IH);
    try exact I.
  pose proof (tasks_validated w Hw _ _ H) as [_ Hamount].
  cbn. split; [assumption | ]. exists polled, (c_amount c). auto.
Qed.

(** X5.  The message in [error] is never the empty string, so the banner
    [error && ...] is shown exactly when [error] is not null. *)
Theorem error_shown_when_set (w : World) :
  reachable w ->
  error (ui w) <> Some "" /\
  (errorShown (ui w) = true <-> error (ui w) <> None).
Proof.
  intros Hreach.
  assert (error (ui w) <> Some "") as Hnonempty.
  { revert w Hreach. apply reachable_invariant; [discriminate | ].
    intros w e w' _ _ IH Ht.
    destruct Ht; cbn; try discriminate; try exact IH.
    unfold countdownTick. now destruct (timeLeft (ui w) <=? 1). }
  split; [exact Hnonempty | ]. unfold errorShown.
  destruct (error (ui w)) as [message | ]; [ | split; congruence].
  destruct message; [congruence | ]. cbn. split; congruence.
Qed.

(** ** The amounts that pass *)

Lemma SFcompare_refl (x : SpecFloat.spec_float) :
  x <> SpecFloat.S754_nan -> SpecFloat.SFcompare x x = Some Eq.
Proof.
  destruct x as [sx | sx | | sx mx ex]; cbn; try congruence.
  - now destruct sx.
  - now destruct sx; rewrite Z.compare_refl, Pos.compare_cont_refl.
Qed.

Lemma SFcompare_nan (x y : SpecFloat.spec_float) :
  SpecFloat.SFcompare x y = None <->
  x = SpecFloat.S754_nan \/ y = SpecFloat.S754_nan.
Proof.
  destruct x as [sx | sx | | sx mx ex], y as [sy | sy | | sy my ey]; cbn;
    split; intros H; try discriminate; auto;
    destruct H; discriminate.
Qed.

Lemma isNaN_false (a : number) :
  isNaN a = false <-> Prim2SF a <> SpecFloat.S754_nan.
Proof.
  unfold isNaN, PrimFloat.is_nan. rewrite FloatAxioms.eqb_spec.
  unfold SpecFloat.SFeqb. split.
  - intros H Hnan. rewrite Hnan in H. discriminate.
  - intros H. now rewrite SFcompare_refl.
Qed.

(** Two numbers that are not NaN are ordered. *)
Lemma num_le_total (a b : number) :
  isNaN a = false -> isNaN b = false ->
  num_le a b = false -> num_lt b a = true.
Proof.
  rewrite !isNaN_false. unfold num_le, num_lt.
  rewrite FloatAxioms.ltb_spec, FloatAxioms.leb_spec.
  unfold SpecFloat.SFltb, SpecFloat.SFleb. intros Ha Hb.
  rewrite (SFcompare_swap (Prim2SF a) (Prim2SF b)).
  destruct (SpecFloat.SFcompare (Prim2SF a) (Prim2SF b)) as [[ | | ] | ] eqn:Hc;
    cbn; try congruence.
  apply SFcompare_nan in Hc. tauto.
Qed.

Lemma num_lt_total (a b : number) :
  isNaN a = false -> isNaN b = false ->
  num_lt b a = false -> num_le a b = true.
Proof.
  rewrite !isNaN_false. unfold num_le, num_lt.
  rewrite FloatAxioms.ltb_spec, FloatAxioms.leb_spec.
  unfold SpecFloat.SFltb, SpecFloat.SFleb. intros Ha Hb.
  rewrite (SFcompare_swap (Prim2SF a) (Prim2SF b)).
  destruct (SpecFloat.SFcompare (Prim2SF a) (Prim2SF b)) as [[ | | ] | ] eqn:Hc;
    cbn; try congruence.
  apply SFcompare_nan in Hc. tauto.
Qed.

Lemma num_lt_not_NaN (a b : number) :
  num_lt a b = true -> isNaN a = false /\ isNaN b = false.
Proof.
  rewrite !isNaN_false. unfold num_lt. rewrite FloatAxioms.ltb_spec.
  unfold SpecFloat.SFltb. intros H.
  split; intros Hnan; rewrite Hnan in H;
    [ | destruct (Prim2SF a)]; discriminate.
Qed.

Lemma num_le_not_gt (a b : number) : num_le a b = true -> num_lt b a = false.
Proof.
  unfold num_le, num_lt.
  rewrite FloatAxioms.ltb_spec, FloatAxioms.leb_spec.
  unfold SpecFloat.SFltb, SpecFloat.SFleb.
  rewrite (SFcompare_swap (Prim2SF a) (Prim2SF b)).
  destruct (SpecFloat.SFcompare (Prim2SF a) (Prim2SF b)) as [[ | | ] | ];
    cbn; congruence.
Qed.

(** X6.  [validateAmount] returns null exactly for the strings that
    [parseFloat] reads as a number [n] with [0 < n] and [n <= 100]; NaN
    and the infinities are among the rejected. *)
Theorem validateAmount_accepts_iff (value : string) :
  validateAmount value = None <->
  num_lt 0%float (parseFloat value) = true /\
  num_le (parseFloat value) 100%float = true.
Proof.
  unfold validateAmount, num_gt. cbv zeta. split.
  - destruct (isNaN (parseFloat value)) eqn:Hnan; [discriminate | ].
    destruct (num_le (parseFloat value) 0%float) eqn:Hle; [discriminate | ].
    destruct (PrimFloat.ltb 100%float (parseFloat value)) eqn:Hgt;
      [discriminate | ].
    intros _. split.
    + now apply num_le_total.
    + now apply num_lt_total.
  - intros [Hpos Hmax].
    destruct (num_lt_not_NaN _ _ Hpos) as [_ ->].
    apply num_lt_not_ge in Hpos. unfold num_ge in Hpos.
    unfold num_le at 1. rewrite Hpos.
    apply num_le_not_gt in Hmax. unfold num_lt in Hmax. now rewrite Hmax.
Qed.

(** ** Whole sessions *)

(** X7.  A start that passes validation overwrites every field of the
    session: what it leaves depends on the form (seller address, amount),
    on the generated keypair and on [copied], and on nothing else of the
    world it starts from, such as an earlier session's balance, signature,
    error or remaining time. *)
Theorem start_forgets_previous_session
    (generated : Keypair) (w1 w2 : World) :
  validInputs (sellerAddress (ui w1)) (amount (ui w1)) ->
  sellerAddress (ui w1) = sellerAddress (ui w2) ->
  amount (ui w1) = amount (ui w2) ->
  copied (ui w1) = copied (ui w2) ->
  ui (startPaymentFlow generated w1) = ui (startPaymentFlow generated w2).
Proof.
  intros [Hkey Hamount] Hs Ha Hc. apply validateAddress_true in Hkey.
  unfold startPaymentFlow. cbn. rewrite <- Hs, <- Ha, Hkey, Hamount. cbn.
  revert Hs Ha Hc. generalize (ui w1) (ui w2). clear.
  intros s1 s2 Hs Ha Hc. destruct s1, s2. cbn in *. subst.
  cbv [setError setTxSignature setBalance setStatus setTimeLeft setTempWallet
       setAmountError setAddressError tempWallet timeLeft status balance
       txSignature error copied sellerAddress addressError amount
       amountError].
  reflexivity.
Qed.

(** X8.  From ['setup'] with inputs that pass validation: the start, a poll
    tick, a balance that meets the target and for which the library builds
    the transfer of the balance minus the reserve, and a transfer that is
    sent and confirmed take the session to ['forwarded'] with the signature
    of that transfer; the library was called four times, to generate the
    keypair, to read its balance, to transfer the balance minus the reserve
    from the new address to the seller, and to confirm; and no invocation
    of this session is left suspended. *)
Theorem payment_completes
    (w : World) (generated : Keypair) (polled : number) (signature : string) :
  reachable w ->
  status (ui w) = setup ->
  validInputs (sellerAddress (ui w)) (amount (ui w)) ->
  num_ge (polled / LAMPORTS_PER_SOL)%float
         (parseFloat (amount (ui w))) = true ->
  transferError (publicKey generated) (sellerAddress (ui w))
    (polled - FEE_RESERVE)%float = None ->
  exists w',
    run w [ClickStart generated; PollTick;
           GetBalanceDone (nextTask w) (Resolved polled);
           SendTransactionDone (nextTask w) (Resolved signature);
           ConfirmTransactionDone (nextTask w) (Resolved tt)] = Some w' /\
    status (ui w') = forwarded /\
    txSignature (ui w') = Some signature /\
    tempWallet (ui w') = Some generated /\
    balance (ui w') = (polled / LAMPORTS_PER_SOL)%float /\
    calls w' = calls w ++
      [KeypairGenerate; GetBalance (publicKey generated);
       SendTransaction (publicKey generated) (sellerAddress (ui w))
         (polled - FEE_RESERVE)%float;
       ConfirmTransaction signature] /\
    pending w' = pending w.
Proof.
  intros Hreach Hsetup Hvalid Hge Hbuilt.
  pose proof (next_task_fresh w (reachable_consistent w Hreach)) as Hfresh.
  set (c := mkClosure generated (sellerAddress (ui w)) (amount (ui w))).
  set (w1 := startedSession generated w).
  set (w2 := spawn (AwaitGetBalance c)
               (logCall (GetBalance (publicKey generated)) w1)).
  set (w3 := forwardIssued (nextTask w) c polled w2).
  set (w4 := suspend (nextTask w) (AwaitConfirmTransaction c signature)
               (logCall (ConfirmTransaction signature) w3)).
  set (w5 := finish (nextTask w)
               (withUi (setStatus forwarded)
                  (withUi (setTxSignature (Some signature)) w4))).
  assert (transition w (ClickStart generated) w1) as H1
      by now apply start_accepted.
  assert (transition w1 PollTick w2) as H2
      by now apply (poll_ticked w1 generated).
  assert (transition w2 (GetBalanceDone (nextTask w) (Resolved polled)) w3)
    as H3.
  { apply balance_met;
      [apply lookup_insert_eq | exact Hge | apply Hvalid | exact Hbuilt]. }
  assert (transition w3
            (SendTransactionDone (nextTask w) (Resolved signature)) w4) as H4.
  { apply send_resolved. apply lookup_insert_eq. }
  assert (transition w4
            (ConfirmTransactionDone (nextTask w) (Resolved tt)) w5) as H5.
  { apply confirm_resolved with c. apply lookup_insert_eq. }
  exists w5. split.
  { cbn [run].
    rewrite (transition_step _ _ _ H1), (transition_step _ _ _ H2),
      (transition_step _ _ _ H3), (transition_step _ _ _ H4),
      (transition_step _ _ _ H5). reflexivity. }
  cbn. repeat split.
  - now rewrite <- !app_assoc.
  - rewrite !delete_insert_eq. now apply delete_id.
Qed.

(** X9.  A forward that fails is tried again by the next poll: in a session
    with a wallet, after the rejection of [sendTransaction] the next tick
    starts a balance check, and when that reads a balance that meets the
    target, and the library builds the transfer of that balance minus the
    reserve, the transfer is issued once more, with the message of the
    failure still in [error]. *)
Theorem failed_forward_is_retried
    (w : World) (wallet : Keypair) (id : nat) (c : Closure)
    (message : string) (polled : number) :
  reachable w ->
  tempWallet (ui w) = Some wallet ->
  pending w !! id = Some (AwaitSendTransaction c) ->
  num_ge (polled / LAMPORTS_PER_SOL)%float
         (parseFloat (amount (ui w))) = true ->
  transferError (publicKey wallet) (sellerAddress (ui w))
    (polled - FEE_RESERVE)%float = None ->
  exists w',
    run w [SendTransactionDone id (Rejected message); PollTick;
           GetBalanceDone (nextTask w) (Resolved polled)] = Some w' /\
    status (ui w') = forwarding /\
    error (ui w') = Some ("Failed to forward payment: " ++ message)%string /\
    calls w' = calls w ++
      [GetBalance (publicKey wallet);
       SendTransaction (publicKey wallet) (sellerAddress (ui w))
         (polled - FEE_RESERVE)%float].
Proof.
  intros Hreach Hwallet Hpending Hge Hbuilt.
  pose proof (reachable_consistent w Hreach) as Hw.
  assert (validInputs (sellerAddress (ui w)) (amount (ui w))) as Hvalid
      by (apply (wallet_validated w Hw); congruence).
  set (c' := mkClosure wallet (sellerAddress (ui w)) (amount (ui w))).
  set (w1 := finish id (withUi (forwardFailed message) w)).
  set (w2 := spawn (AwaitGetBalance c')
               (logCall (GetBalance (publicKey wallet)) w1)).
  set (w3 := forwardIssued (nextTask w) c' polled w2).
  assert (transition w (SendTransactionDone id (Rejected message)) w1) as H1
      by now apply send_rejected with c.
  assert (transition w1 PollTick w2) as H2
      by now apply (poll_ticked w1 wallet).
  assert (transition w2 (GetBalanceDone (nextTask w) (Resolved polled)) w3)
    as H3.
  { apply balance_met;
      [apply lookup_insert_eq | exact Hge | apply Hvalid | exact Hbuilt]. }
  exists w3. split.
  { cbn [run].
    rewrite (transition_step _ _ _ H1), (transition_step _ _ _ H2),
      (transition_step _ _ _ H3). reflexivity. }
  cbn. repeat split. now rewrite <- !app_assoc.
Qed.

Lemma stuck_pageStep p e p' :
  status (ui (flow p)) = waiting ->
  tempWallet (ui (flow p)) = None ->
  pending (flow p) = ∅ ->
  pageStep p e = Some p' ->
  (forall flowEvent, e <> FlowEvent flowEvent) /\
  status (ui (flow p')) = waiting /\
  tempWallet (ui (flow p')) = None /\
  pending (flow p') = ∅ /\
  calls (flow p') = calls (flow p).
Proof.
  intros Hwaiting Hwallet Hpending Hstep.
  destruct e as [flowEvent | | r | ]; unfold pageStep in Hstep.
  - exfalso. revert Hstep.
    destruct flowEvent; unfold step, timersActive;
      rewrite ?Hwaiting, ?Hwallet, ?Hpending, ?lookup_empty; discriminate.
  - destruct (view (ui (flow p))); try discriminate.
    injection Hstep as <-. cbn. repeat split; auto; discriminate.
  - destruct (clipboardWrites p); [discriminate | ].
    destruct r; injection Hstep as <-; cbn; repeat split; auto;
      discriminate.
  - destruct (copiedTimers p); [discriminate | ].
    injection Hstep as <-. cbn. repeat split; auto; discriminate.
Qed.

(** X10.  In ['waiting'] without a wallet and with no invocation suspended
    the session cannot move on.  Neither interval is installed, and the
    form with the start button and the reset button are not rendered: no
    event of the flow is possible.  What is rendered is the main content,
    with its copy button: a click on it is possible, and the clicks, the
    clipboard results and the timers of [handleCopy] leave the session
    where it is, in ['waiting'] without a wallet, with nothing suspended
    and no call to the library added. *)
Theorem waiting_without_wallet_is_stuck (p : Page) :
  status (ui (flow p)) = waiting ->
  tempWallet (ui (flow p)) = None ->
  pending (flow p) = ∅ ->
  (forall e, step (flow p) e = None) /\
  (forall e, pageStep p (FlowEvent e) = None) /\
  view (ui (flow p)) = MainContent /\
  resetButtonShown (ui (flow p)) = false /\
  (exists p', pageStep p ClickCopy = Some p') /\
  (forall es p',
     pageRun p es = Some p' ->
     Forall (fun e => forall flowEvent, e <> FlowEvent flowEvent) es /\
     status (ui (flow p')) = waiting /\
     tempWallet (ui (flow p')) = None /\
     pending (flow p') = ∅ /\
     calls (flow p') = calls (flow p)).
Proof.
  intros Hwaiting Hwallet Hpending.
  assert (forall e, step (flow p) e = None) as Hnone.
  { intros e. destruct e; unfold step, timersActive;
      rewrite ?Hwaiting, ?Hwallet, ?Hpending, ?lookup_empty; reflexivity. }
  split; [exact Hnone | ].
  split; [intros e; unfold pageStep; now rewrite Hnone | ].
  split; [unfold view; now rewrite Hwaiting | ].
  split; [unfold resetButtonShown; now rewrite Hwaiting | ].
  split; [unfold pageStep, view; rewrite Hwaiting; eauto | ].
  intros es. revert p Hwaiting Hwallet Hpending Hnone.
  induction es as [ | e es IH]; intros p Hwaiting Hwallet Hpending _ p' Hrun;
    cbn in Hrun.
  - injection Hrun as <-. auto.
  - destruct (pageStep p e) as [p1 | ] eqn:Hstep; [ | discriminate].
    destruct (stuck_pageStep p e p1 Hwaiting Hwallet Hpending Hstep)
      as (Hcopy & Hwaiting1 & Hwallet1 & Hpending1 & Hcalls1).
    assert (forall e', step (flow p1) e' = None) as Hnone1.
    { intros e'. destruct e'; unfold step, timersActive;
        rewrite ?Hwaiting1, ?Hwallet1, ?Hpending1, ?lookup_empty;
        reflexivity. }
    destruct (IH p1 Hwaiting1 Hwallet1 Hpending1 Hnone1 p' Hrun)
      as (Hes & Hw & Ht & Hp & Hc).
    rewrite <- Hcalls1. auto.
Qed.

(** X11.  The seller address and the amount change only through the form,
    which is handled only in ['setup']: every other step, and every step
    outside ['setup'], leaves both as they are. *)
Theorem inputs_change_only_in_setup (w : World) (e : Event) (w' : World) :
  step w e = Some w' ->
  status (ui w) <> setup \/
  (forall value, e <> ChangeSellerAddress value /\ e <> ChangeAmount value) ->
  sellerAddress (ui w') = sellerAddress (ui w) /\
  amount (ui w') = amount (ui w).
Proof.
  intros Hstep Hcase. apply step_transition in Hstep.
  destruct Hstep; cbn; auto;
    try (unfold countdownTick; now destruct (timeLeft (ui w) <=? 1)).
  - destruct Hcase as [Hcase | Hcase]; [contradiction | ].
    now destruct (Hcase value) as [Hne _].
  - destruct Hcase as [Hcase | Hcase]; [contradiction | ].
    now destruct (Hcase trimmed) as [_ Hne].
Qed.

(** ** The clipboard *)

Lemma transition_copied w e w' :
  transition w e w' -> copied (ui w') = copied (ui w).
Proof.
  intros Ht. destruct Ht; cbn; try reflexivity.
  unfold countdownTick. now destruct (timeLeft (ui w) <=? 1).
Qed.

Lemma countdownTick_setCopied b s :
  countdownTick (setCopied b s) = setCopied b (countdownTick s).
Proof.
  unfold countdownTick.
  change (timeLeft (setCopied b s)) with (timeLeft s).
  now destruct (timeLeft s <=? 1).
Qed.

Lemma step_setCopied (b : bool) (w : World) (e : Event) :
  step (withUi (setCopied b) w) e =
  option_map (withUi (setCopied b)) (step w e).
Proof.
  destruct e as [g | | v | v | | | id r | id r | id r]; unfold step; cbn.
  - destruct (Status_eqb (status (ui w)) setup); [ | reflexivity]. cbn.
    unfold startPaymentFlow. cbn.
    destruct (validateAddress (sellerAddress (ui w))); cbn; [ | reflexivity].
    now destruct (validateAmount (amount (ui w))).
  - now destruct (status (ui w)).
  - now destruct (Status_eqb (status (ui w)) setup).
  - now destruct (Status_eqb (status (ui w)) setup).
  - unfold timersActive. cbn.
    destruct (tempWallet (ui w)); [ | reflexivity].
    destruct (Status_eqb (status (ui w)) waiting); [ | reflexivity]. cbn.
    unfold withUi. cbn. now rewrite countdownTick_setCopied.
  - unfold timersActive. cbn.
    destruct (tempWallet (ui w)) eqn:Hwallet; [ | reflexivity].
    destruct (Status_eqb (status (ui w)) waiting); [ | reflexivity]. cbn.
    unfold checkBalance_start. cbn. now rewrite Hwallet.
  - destruct (pending w !! id) as [[c | c | c sig] | ]; try reflexivity. cbn.
    unfold checkBalance_gotBalance.
    destruct r as [polled | message]; [ | reflexivity].
    destruct (num_ge _ _); [ | reflexivity].
    destruct (publicKeyError (c_sellerAddress c)); [reflexivity | ].
    now destruct (transferError _ _ _).
  - destruct (pending w !! id) as [[c | c | c sig] | ]; try reflexivity. cbn.
    now destruct r.
  - destruct (pending w !! id) as [[c | c | c sig] | ]; try reflexivity. cbn.
    now destruct r.
Qed.

(** X12.  Copying the address has no part in the flow.  A click on the copy
    button, the clipboard settling and the timer firing leave every field
    of the world but [copied] as it is; and the flow does not read
    [copied]: with the flag set either way, each event is possible in the
    same worlds and leads to the same world up to the flag. *)
Theorem copy_does_not_interfere (p : Page) :
  (forall e p',
     pageStep p e = Some p' ->
     (forall flowEvent, e <> FlowEvent flowEvent) ->
     flow p' = flow p \/ exists b, flow p' = withUi (setCopied b) (flow p)) /\
  (forall b e,
     step (withUi (setCopied b) (flow p)) e =
     option_map (withUi (setCopied b)) (step (flow p) e)).
Proof.
  split; [ | intros b e; apply step_setCopied].
  intros e p' Hstep Hcopy.
  destruct e as [flowEvent | | r | ]; unfold pageStep in Hstep.
  - now elim (Hcopy flowEvent).
  - destruct (view (ui (flow p))); try discriminate.
    injection Hstep as <-. now left.
  - destruct (clipboardWrites p); [discriminate | ].
    destruct r; injection Hstep as <-; cbn; eauto.
  - destruct (copiedTimers p); [discriminate | ].
    injection Hstep as <-. cbn. eauto.
Qed.

Lemma pageReachable_run p es p' :
  pageReachable p -> pageRun p es = Some p' -> pageReachable p'.
Proof.
  revert p. induction es as [ | e es IH]; intros p Hp Hrun; cbn in Hrun.
  - congruence.
  - destruct (pageStep p e) as [p1 | ] eqn:Hstep; [ | discriminate].
    eapply IH; [ | exact Hrun]. econstructor; eassumption.
Qed.

(** X13.  ['Copied!'] does not stay: whenever [copied] is true, a timer that
    will set it back to false has not fired yet. *)
Theorem copied_has_pending_timer (p : Page) :
  pageReachable p ->
  copied (ui (flow p)) = true -> (0 < copiedTimers p)%nat.
Proof.
  induction 1 as [ | p e p' Hreach IH Hstep]; [discriminate | ].
  destruct e as [flowEvent | | r | ]; unfold pageStep in Hstep.
  - destruct (step (flow p) flowEvent) as [w' | ] eqn:Hflow; [ | discriminate].
    injection Hstep as <-. cbn.
    apply step_transition, transition_copied in Hflow. now rewrite Hflow.
  - destruct (view (ui (flow p))); try discriminate.
    injection Hstep as <-. exact IH.
  - destruct (clipboardWrites p); [discriminate | ].
    destruct r; injection Hstep as <-; cbn; [lia | exact IH].
  - destruct (copiedTimers p); [discriminate | ].
    injection Hstep as <-. cbn. discriminate.
Qed.

(** ** The countdown as it is shown *)

Lemma window_check (P : Z -> bool) (n : nat) :
  forallb (fun k => P (Z.of_nat k)) (seq 0 (S n)) = true ->
  forall t, 0 <= t <= Z.of_nat n -> P t = true.
Proof.
  intros Hall t Ht. rewrite forallb_forall in Hall.
  rewrite <- (Z2Nat.id t) by lia. apply Hall.
  apply in_seq. lia.
Qed.

(** X14.  The remaining time is shown as [m:ss]: one digit for the minutes,
    a colon, and always two digits for the seconds. *)
Theorem time_is_shown_as_minutes_and_seconds (w : World) :
  reachable w ->
  timeDisplay (timeLeft (ui w)) =
    String (digitChar (timeLeft (ui w) / 60))
      (String ":"
         (String (digitChar (timeLeft (ui w) mod 60 / 10))
            (String (digitChar (timeLeft (ui w) mod 10)) ""))) /\
  0 <= timeLeft (ui w) / 60 <= 5 /\
  0 <= timeLeft (ui w) mod 60 < 60.
Proof.
  intros Hreach. destruct (reachable_timeLeft w Hreach) as [Hrange _].
  unfold PAYMENT_WINDOW in Hrange. split.
  - apply String.eqb_eq.
    apply (window_check
             (fun t => String.eqb (timeDisplay t)
                (String (digitChar (t / 60))
                   (String ":"
                      (String (digitChar (t mod 60 / 10))
                         (String (digitChar (t mod 10)) ""))))) 300);
      [vm_compute; reflexivity | exact Hrange].
  - split.
    + split; [apply Z.div_pos; lia | ].
      apply Z.div_le_upper_bound; lia.
    + apply Z.mod_pos_bound. lia.
Qed.

(** X15.  The width of the progress bar is between 0 and 100 percent, it is
    no larger than it was a second earlier, and it is 100 at the start of
    the window and 0 at its end. *)
Theorem progress_in_percent (w : World) :
  reachable w ->
  num_le 0%float (progress (timeLeft (ui w))) = true /\
  num_le (progress (timeLeft (ui w))) 100%float = true /\
  num_le (progress (timeLeft (ui w))) (progress (timeLeft (ui w) + 1)) = true /\
  progress PAYMENT_WINDOW = 100%float /\
  progress 0 = 0%float.
Proof.
  intros Hreach. destruct (reachable_timeLeft w Hreach) as [Hrange _].
  unfold PAYMENT_WINDOW in Hrange.
  assert ((num_le 0%float (progress (timeLeft (ui w))) &&
           num_le (progress (timeLeft (ui w))) 100%float &&
           num_le (progress (timeLeft (ui w)))
                  (progress (timeLeft (ui w) + 1)))%bool = true) as Hcheck.
  { apply (window_check
             (fun t => (num_le 0%float (progress t) &&
                        num_le (progress t) 100%float &&
                        num_le (progress t) (progress (t + 1)))%bool) 300);
      [vm_compute; reflexivity | exact Hrange]. }
  apply andb_prop in Hcheck as [Hcheck Hstep].
  apply andb_prop in Hcheck as [Hlow Hhigh].
  repeat split; try assumption; vm_compute; reflexivity.
Qed.

(** ** The statuses a step connects *)

(** X17.  A step keeps the status or follows one of six edges: a start from
    the setup form into ['waiting']; the countdown from ['waiting'] into
    ['expired']; a balance check into ['forwarding']; a failed forward into
    ['waiting']; a confirmed forward into ['forwarded']; and the reset
    button, which is there in ['forwarded'] and ['expired'], into ['setup'].
    The three edges of [checkBalance] start from any status. *)
Theorem status_edges (w : World) (e : Event) (w' : World) :
  step w e = Some w' ->
  status (ui w') = status (ui w) \/
  (exists generated, e = ClickStart generated /\
     view (ui w) = SetupForm /\ status (ui w') = waiting) \/
  (e = CountdownTick /\ status (ui w) = waiting /\
     status (ui w') = expired) \/
  (exists id polled, e = GetBalanceDone id (Resolved polled) /\
     (status (ui w') = forwarding \/ status (ui w') = waiting)) \/
  (exists id message,
     (e = SendTransactionDone id (Rejected message) \/
      e = ConfirmTransactionDone id (Rejected message)) /\
     status (ui w') = waiting) \/
  (exists id u, e = ConfirmTransactionDone id (Resolved u) /\
     status (ui w') = forwarded) \/
  (e = ClickReset /\ resetButtonShown (ui w) = true /\
     status (ui w') = setup).
Proof.
  intros Hstep. apply step_transition in Hstep.
  destruct Hstep as [g Hsetup | g m Hsetup | g Hsetup | Hterminal | | |
                     Hactive | | | | | | | | | | ]; cbn; auto.
  - right. left. exists g. unfold view. now rewrite Hsetup.
  - do 6 right. unfold resetButtonShown.
    destruct Hterminal as [-> | ->]; auto.
  - apply timersActive_true in Hactive as [_ Hwaiting].
    destruct (countdownTick_status (ui w)) as [Hexpired | Hsame]; auto.
    right. right. left. auto.
  - do 3 right. left. eauto.
  - do 3 right. left. eauto.
  - do 3 right. left. eauto.
  - do 4 right. left. eauto.
  - do 4 right. left. eauto.
  - do 5 right. left. eauto.
Qed.

End Flow.

(** ** The order of the two checks *)

(** C10.  [startPaymentFlow] checks the address first and returns as soon as
    it is invalid: the address error is set, the amount error stays null
    whatever the amount is, and the result is the same for every way of
    reading the amount, so the amount is not looked at. *)
Theorem start_validates_address_first
    (parseFloat parseFloat' : string -> number)
    (publicKeyError : string -> option string)
    (generated : Keypair) (w : World) :
  validateAddress publicKeyError (sellerAddress (ui w)) = false ->
  addressError (ui (startPaymentFlow parseFloat publicKeyError generated w)) =
    Some "Invalid Solana address" /\
  amountError (ui (startPaymentFlow parseFloat publicKeyError generated w)) =
    None /\
  startPaymentFlow parseFloat publicKeyError generated w =
    withUi (setAddressError (Some "Invalid Solana address"))
      (withUi (setAmountError None) (withUi (setAddressError None) w)) /\
  startPaymentFlow parseFloat' publicKeyError generated w =
    startPaymentFlow parseFloat publicKeyError generated w.
Proof.
  intros Hbad. unfold startPaymentFlow. cbn. rewrite Hbad. cbn. auto.
Qed.

(** * The sessions of [Scenario], evaluated *)

Local Abbreviation stepP := (step Platform.parseFloat Platform.publicKeyError
    Platform.transferError).
Local Abbreviation runP := (run Platform.parseFloat Platform.publicKeyError
    Platform.transferError).
Local Abbreviation reachableP :=
  (reachable Platform.parseFloat Platform.publicKeyError
      Platform.transferError).

(** The default form was submitted. *)
Local Abbreviation startedWorld :=
  (startPaymentFlow Platform.parseFloat Platform.publicKeyError
     Scenario.wallet initialWorld).
(** The first balance check is in flight. *)
Local Abbreviation pollingWorld := (checkBalance_start startedWorld).
Local Abbreviation defaultClosure :=
  (mkClosure Scenario.wallet DEFAULT_SELLER_ADDRESS DEFAULT_AMOUNT).

(** Evaluates a closed statement: the world of [exists w, f = Some w /\ _]
    is the value of [f], and each part of a conjunction is computed. *)
Ltac evaluate :=
  repeat match goal with
         | |- _ /\ _ => split
         | |- ex (fun w => ?f = Some w /\ _) =>
             let r := eval vm_compute in f in
             lazymatch r with Some ?v => exists v end
         end;
  (vm_compute; reflexivity).

Lemma pollingWorld_reachable : reachableP pollingWorld.
Proof.
  apply (reachable_run _ _ _ initialWorld Scenario.firstPoll);
    [apply reachable_init | vm_compute; reflexivity].
Qed.

(** The first balance check has read the payment and issued the forward. *)
Local Abbreviation forwardingWorld :=
  (checkBalance_gotBalance Platform.parseFloat Platform.publicKeyError
      Platform.transferError
     0 defaultClosure (Resolved Scenario.paid) pollingWorld).

Lemma forwardingWorld_reachable : reachableP forwardingWorld.
Proof.
  apply (reachable_run _ _ _ initialWorld
           (Scenario.firstPoll ++ [GetBalanceDone 0 (Resolved Scenario.paid)]));
    [apply reachable_init | vm_compute; reflexivity].
Qed.

(** ** C1 *)

(** What [Platform.transferError] says of the amounts: a transfer of a
    negative amount is not built, a transfer of zero is. *)
Lemma transferError_negative fromPubkey toPubkey lamports :
  PrimFloat.ltb lamports 0%float = true ->
  Platform.transferError fromPubkey toPubkey lamports <> None.
Proof.
  intros Hnegative. unfold Platform.transferError.
  destruct (Platform.isInteger lamports); cbn; [ | discriminate].
  rewrite Hnegative. discriminate.
Qed.

Lemma transferError_zero fromPubkey toPubkey :
  Platform.transferError fromPubkey toPubkey 0%float = None.
Proof. reflexivity. Qed.

(** The amount is 0.000001 SOL and the first balance check is in flight. *)
Local Abbreviation tinyClosure :=
  (mkClosure Scenario.wallet DEFAULT_SELLER_ADDRESS "0.000001").
Local Abbreviation tinyPollingWorld :=
  (checkBalance_start
     (startPaymentFlow Platform.parseFloat Platform.publicKeyError
        Scenario.wallet
        (withUi (handleAmountChange "0.000001") initialWorld))).

Lemma tinyPollingWorld_reachable : reachableP tinyPollingWorld.
Proof.
  apply (reachable_run _ _ _ initialWorld
           [ChangeAmount "0.000001"; ClickStart Scenario.wallet; PollTick]);
    [apply reachable_init | vm_compute; reflexivity].
Qed.

(** With an amount of 0.000005 SOL and 5000 lamports received, the balance
    minus the reserve is zero, which is not positive; the balance passes
    the comparison, [status] is ['forwarding'] and a transfer of 0 lamports
    is issued. *)
Lemma forward_of_zero_amount_issued :
  exists w,
    runP initialWorld Scenario.reserveOnly = Some w /\
    num_le (5000 - FEE_RESERVE)%float 0%float = true /\
    status (ui w) = forwarding /\
    calls w =
      [KeypairGenerate; GetBalance (publicKey Scenario.wallet);
       SendTransaction (publicKey Scenario.wallet) DEFAULT_SELLER_ADDRESS
         0%float].
Proof. evaluate. Qed.

Lemma forward_amount_is_balance_minus_reserve_witness :
  (exists w',
     stepP pollingWorld (GetBalanceDone 0 (Resolved Scenario.paid)) =
       Some w' /\
     status (ui w') = forwarding /\
     calls w' = calls pollingWorld ++
       [SendTransaction (publicKey Scenario.wallet) DEFAULT_SELLER_ADDRESS
          (Scenario.paid - FEE_RESERVE)%float]) /\
  (exists w',
     stepP tinyPollingWorld (GetBalanceDone 0 (Resolved 1000%float)) =
       Some w' /\
     status (ui w') = waiting /\
     calls w' = calls tinyPollingWorld).
Proof.
  split.
  - destruct (proj2 (forward_amount_is_balance_minus_reserve
                       Platform.parseFloat Platform.publicKeyError
                       Platform.transferError pollingWorld)
                0%nat defaultClosure Scenario.paid) as [Hbuilt _].
    + exact pollingWorld_reachable.
    + vm_compute; reflexivity.
    + vm_compute; reflexivity.
    + apply Hbuilt. vm_compute; reflexivity.
  - destruct (proj2 (forward_amount_is_balance_minus_reserve
                       Platform.parseFloat Platform.publicKeyError
                       Platform.transferError tinyPollingWorld)
                0%nat tinyClosure 1000%float) as [_ Hthrown].
    + exact tinyPollingWorld_reachable.
    + vm_compute; reflexivity.
    + vm_compute; reflexivity.
    + destruct (Hthrown _ eq_refl) as (w' & Hstep & Hstatus & _ & Hcalls & _).
      exists w'. auto.
Defined.

(** ** C2 *)

(** With an amount of 0.000001 SOL and 1000 lamports received, the balance
    is equal to the target, and the session is not in ['forwarding']: the
    transfer of -4000 lamports is not built, no [sendTransaction] is
    issued, and the session is in ['waiting'] with the message of the
    failed forward. *)
Lemma balance_met_without_forwarding :
  exists w,
    runP initialWorld Scenario.tinyAmount = Some w /\
    num_ge (1000 / LAMPORTS_PER_SOL)%float
           (Platform.parseFloat "0.000001") = true /\
    status (ui w) = waiting /\
    sendCalls (calls w) = [] /\
    pending w = ∅ /\
    error (ui w) =
      Some ("Failed to forward payment: " ++
            "Codec [u64] expected number to be in the range")%string.
Proof. evaluate. Qed.

Lemma poll_threshold_decision_witness :
  (exists w',
     stepP pollingWorld (GetBalanceDone 0 (Resolved Scenario.paid)) =
       Some w' /\
     status (ui w') = forwarding) /\
  (exists w',
     stepP tinyPollingWorld (GetBalanceDone 0 (Resolved 1000%float)) =
       Some w' /\
     status (ui w') = waiting /\
     calls w' = calls tinyPollingWorld) /\
  (forall w',
     runWhile Platform.parseFloat Platform.publicKeyError
       Platform.transferError
       (pollBelowTarget Platform.parseFloat) pollingWorld
       [GetBalanceDone 0 (Resolved 9999999%float); PollTick;
        GetBalanceDone 1 (Resolved 9999999%float)] = Some w' ->
     status (ui w') = waiting).
Proof.
  split; [ | split].
  - destruct (poll_threshold_decision
                Platform.parseFloat Platform.publicKeyError
                Platform.transferError pollingWorld
                0%nat defaultClosure Scenario.paid)
      as (Hmet & _).
    + exact pollingWorld_reachable.
    + vm_compute; reflexivity.
    + vm_compute; reflexivity.
    + destruct Hmet as [Hbuilt _]; [vm_compute; reflexivity | ].
      destruct Hbuilt as (w' & Hstep & Hstatus & _);
        [vm_compute; reflexivity | eauto].
  - destruct (poll_threshold_decision
                Platform.parseFloat Platform.publicKeyError
                Platform.transferError tinyPollingWorld
                0%nat tinyClosure 1000%float)
      as (Hmet & _).
    + exact tinyPollingWorld_reachable.
    + vm_compute; reflexivity.
    + vm_compute; reflexivity.
    + destruct Hmet as [_ Hthrown]; [vm_compute; reflexivity | ].
      destruct (Hthrown _ eq_refl)
        as (w' & Hstep & _ & Hstatus & _ & _ & Hcalls & _).
      exists w'. auto.
  - destruct (poll_threshold_decision
                Platform.parseFloat Platform.publicKeyError
                Platform.transferError pollingWorld
                0%nat defaultClosure Scenario.paid)
      as (_ & _ & _ & Hbelow).
    + exact pollingWorld_reachable.
    + vm_compute; reflexivity.
    + vm_compute; reflexivity.
    + intros w' Hrun. now destruct (Hbelow _ _ Hrun).
Defined.

(** ** C3 *)

Lemma forward_failure_returns_to_waiting_witness :
  exists w',
    stepP (checkBalance_gotBalance Platform.parseFloat Platform.publicKeyError
        Platform.transferError
             0 defaultClosure (Resolved Scenario.paid) pollingWorld)
      (SendTransactionDone 0 (Rejected "blockhash not found")) = Some w' /\
    status (ui w') = waiting /\
    error (ui w') = Some "Failed to forward payment: blockhash not found" /\
    timeLeft (ui w') = 300 /\
    balance (ui w') = 0.01%float.
Proof.
  destruct (proj1 (forward_failure_returns_to_waiting
                     Platform.parseFloat Platform.publicKeyError
                     Platform.transferError
                     (checkBalance_gotBalance Platform.parseFloat
                        Platform.publicKeyError Platform.transferError 0 defaultClosure
                        (Resolved Scenario.paid) pollingWorld)
                     0%nat defaultClosure "blockhash not found"))
    as (w' & Hstep & Hstatus & Herror & Htime & Hbalance & _).
  - vm_compute; reflexivity.
  - exists w'. rewrite Hstatus, Herror, Htime, Hbalance.
    split; [exact Hstep | evaluate].
Defined.

(** ** C4 *)

Lemma start_invalid_stays_in_setup_witness :
  exists w',
    stepP (withUi (handleAmountChange "0") initialWorld)
      (ClickStart Scenario.wallet) = Some w' /\
    status (ui w') = setup /\
    tempWallet (ui w') = None /\
    calls w' = [].
Proof.
  destruct (start_invalid_stays_in_setup
              Platform.parseFloat Platform.publicKeyError
              Platform.transferError Scenario.wallet
              (withUi (handleAmountChange "0") initialWorld))
    as (w' & Hstep & Hstatus & _ & _ & Hwallet & _ & _ & Hcalls & _).
  - vm_compute; reflexivity.
  - right. right. left. vm_compute; reflexivity.
  - exists w'. rewrite Hwallet, Hcalls. auto.
Defined.

(** ** C5 *)

(** A second tick starts a check while the first one is in flight, and both
    forward the same payment. *)
Lemma overlapping_polls_forward_twice :
  pending pollingWorld !! 0%nat = Some (AwaitGetBalance defaultClosure) /\
  (exists w1, stepP pollingWorld PollTick = Some w1 /\
              pending w1 !! 0%nat = Some (AwaitGetBalance defaultClosure) /\
              pending w1 !! 1%nat = Some (AwaitGetBalance defaultClosure)) /\
  (exists w,
     runP initialWorld Scenario.overlappingPolls = Some w /\
     sendCalls (calls w) =
       [SendTransaction (publicKey Scenario.wallet) DEFAULT_SELLER_ADDRESS
          9995000%float;
        SendTransaction (publicKey Scenario.wallet) DEFAULT_SELLER_ADDRESS
          9995000%float]).
Proof.
  evaluate.
Qed.

Lemma poll_ticks_start_checks_while_waiting_witness :
  (exists w',
     stepP pollingWorld PollTick = Some w' /\
     pending w' =
       <[1%nat := AwaitGetBalance defaultClosure]> (pending pollingWorld)) /\
  (exists w',
     stepP pollingWorld (GetBalanceDone 0 (Resolved Scenario.paid)) =
       Some w' /\
     sendCalls (calls w') =
       [SendTransaction (publicKey Scenario.wallet) DEFAULT_SELLER_ADDRESS
          (Scenario.paid - FEE_RESERVE)%float]) /\
  stepP forwardingWorld (GetBalanceDone 0 (Resolved Scenario.paid)) = None.
Proof.
  destruct (poll_ticks_start_checks_while_waiting
              Platform.parseFloat Platform.publicKeyError
              Platform.transferError pollingWorld pollingWorld_reachable)
    as (_ & _ & Hstart & Hforward & _ & Honce & _).
  split; [ | split].
  - destruct (Hstart Scenario.wallet) as (w' & Hstep & _ & _ & _ & Hpending);
      [vm_compute; reflexivity | vm_compute; reflexivity | ].
    exists w'. split; [exact Hstep | ].
    rewrite Hpending. vm_compute; reflexivity.
  - destruct (Hforward 0%nat defaultClosure Scenario.paid)
      as (w' & Hstep & Hcalls);
      [vm_compute; reflexivity | vm_compute; reflexivity
       | vm_compute; reflexivity | ].
    exists w'. split; [exact Hstep | ].
    rewrite Hcalls. vm_compute; reflexivity.
  - apply (Honce 0%nat (Resolved Scenario.paid) forwardingWorld []
             forwardingWorld (Resolved Scenario.paid));
      vm_compute; reflexivity.
Defined.

(** ** C6 *)

(** The session expires while a balance check is in flight; the check then
    reads the payment and [status] leaves ['expired'] for ['forwarding'].
    The same after the expired session was reset. *)
Lemma late_balance_leaves_expired :
  (exists w,
     runP initialWorld (Scenario.firstPoll ++ repeat CountdownTick 300) =
       Some w /\
     status (ui w) = expired /\
     exists w',
       stepP w (GetBalanceDone 0 (Resolved Scenario.paid)) = Some w' /\
       status (ui w') = forwarding) /\
  (exists w,
     runP initialWorld
       (Scenario.firstPoll ++ repeat CountdownTick 300 ++ [ClickReset]) =
       Some w /\
     status (ui w) = setup /\
     tempWallet (ui w) = None /\
     exists w',
       stepP w (GetBalanceDone 0 (Resolved Scenario.paid)) = Some w' /\
       status (ui w') = forwarding).
Proof.
  evaluate.
Qed.

Lemma late_results_after_expiry_or_reset_witness :
  exists w',
    stepP (Nat.iter 300 (withUi countdownTick) pollingWorld)
      (GetBalanceDone 0 (Resolved Scenario.paid)) = Some w' /\
    status (ui w') = forwarding.
Proof.
  assert (reachableP (Nat.iter 300 (withUi countdownTick) pollingWorld))
    as Hreach.
  { apply (reachable_run _ _ _ initialWorld
             (Scenario.firstPoll ++ repeat CountdownTick 300));
      [apply reachable_init | vm_compute; reflexivity]. }
  assert (status (ui (Nat.iter 300 (withUi countdownTick) pollingWorld)) =
          expired) as Hexpired by (vm_compute; reflexivity).
  destruct (late_results_after_expiry_or_reset
              Platform.parseFloat Platform.publicKeyError
              Platform.transferError _ Hreach (or_introl Hexpired))
    as (_ & _ & Hbalance & _).
  destruct (Hbalance 0%nat defaultClosure) as (_ & _ & Hmet);
    [vm_compute; reflexivity | ].
  destruct (Hmet Scenario.paid) as [Hbuilt _]; [vm_compute; reflexivity | ].
  apply Hbuilt. vm_compute; reflexivity.
Defined.

(** ** C7 *)

Lemma countdown_expires_waiting_session_witness :
  exists w',
    runWhile Platform.parseFloat Platform.publicKeyError Platform.transferError
      (targetNotMet Platform.parseFloat) startedWorld
      ([PollTick; GetBalanceDone 0 (Resolved 0%float)] ++
       repeat CountdownTick 300) = Some w' /\
    status (ui w') = expired /\
    timeLeft (ui w') = 0 /\
    balance (ui w') = 0%float /\
    sendCalls (calls w') = [].
Proof.
  eexists. split; [vm_compute; reflexivity | ].
  edestruct (countdown_expires_waiting_session
               Platform.parseFloat Platform.publicKeyError
               Platform.transferError startedWorld
               ([PollTick; GetBalanceDone 0 (Resolved 0%float)] ++
                repeat CountdownTick 300))
    as (Hsends & Hbalance & _ & Hexpired).
  - vm_compute; reflexivity.
  - vm_compute; reflexivity.
  - vm_compute; reflexivity.
  - destruct Hexpired as (_ & Hstatus & Htime); [vm_compute; discriminate | ].
    rewrite Hsends, Hbalance, Hstatus, Htime. evaluate.
Defined.

(** ** C8 *)

(** The expired session and the completed session both still hold the
    keypair, secret key included. *)
Lemma keypair_retained_in_terminal_states :
  (exists w,
     runP initialWorld Scenario.expiry = Some w /\
     status (ui w) = expired /\
     tempWallet (ui w) = Some Scenario.wallet) /\
  (exists w,
     runP initialWorld Scenario.forwardCompleted = Some w /\
     status (ui w) = forwarded /\
     tempWallet (ui w) = Some Scenario.wallet).
Proof.
  evaluate.
Qed.

Lemma keypair_kept_until_reset_witness :
  exists w',
    stepP (Nat.iter 299 (withUi countdownTick) startedWorld) CountdownTick =
      Some w' /\
    status (ui w') = expired /\
    tempWallet (ui w') = Some Scenario.wallet.
Proof.
  eexists. split; [vm_compute; reflexivity | ].
  split; [vm_compute; reflexivity | ].
  edestruct (keypair_kept_until_reset
               Platform.parseFloat Platform.publicKeyError
               Platform.transferError
               (Nat.iter 299 (withUi countdownTick) startedWorld)
               CountdownTick) as (Hkept & _).
  - vm_compute; reflexivity.
  - rewrite Hkept; [ | right]; vm_compute; reflexivity.
Defined.

(** ** C9 *)

(** The message of a failed balance check is still in [error] when the
    session is ['forwarding'], and when it is ['forwarded']. *)
Lemma error_survives_forwarding :
  (exists w,
     runP initialWorld Scenario.forwardAfterNetworkError = Some w /\
     status (ui w) = forwarding /\
     error (ui w) = Some "Failed to check balance: fetch failed") /\
  (exists w,
     runP initialWorld Scenario.forwardCompleted = Some w /\
     status (ui w) = forwarded /\
     error (ui w) = Some "Failed to check balance: fetch failed").
Proof.
  evaluate.
Qed.

Lemma error_cleared_by_start_only_witness :
  exists w',
    stepP initialWorld (ClickStart Scenario.wallet) = Some w' /\
    status (ui w') = waiting /\
    error (ui w') = None.
Proof.
  apply (proj1 (error_cleared_by_start_only
                  Platform.parseFloat Platform.publicKeyError
                  Platform.transferError initialWorld)
           Scenario.wallet).
  - vm_compute; reflexivity.
  - split; vm_compute; reflexivity.
Defined.

(** ** C10 *)

Lemma start_validates_address_first_witness :
  validateAmount Platform.parseFloat "-1" =
    Some "Amount must be greater than 0" /\
  amountError
    (ui (startPaymentFlow Platform.parseFloat Platform.publicKeyError
           Scenario.wallet
           (withUi (handleSellerAddressChange "not an address")
              (withUi (handleAmountChange "-1") initialWorld)))) = None /\
  addressError
    (ui (startPaymentFlow Platform.parseFloat Platform.publicKeyError
           Scenario.wallet
           (withUi (handleSellerAddressChange "not an address")
              (withUi (handleAmountChange "-1") initialWorld)))) =
    Some "Invalid Solana address".
Proof.
  split; [vm_compute; reflexivity | ].
  destruct (start_validates_address_first
              Platform.parseFloat Platform.parseFloat Platform.publicKeyError
              Scenario.wallet
              (withUi (handleSellerAddressChange "not an address")
                 (withUi (handleAmountChange "-1") initialWorld)))
    as (Haddress & Hamount & _).
  - vm_compute; reflexivity.
  - split; assumption.
Defined.

(** * More sessions, evaluated *)

(** The world of [exists w, f = Some w /\ _] is the value of [f]. *)
Ltac run_exists :=
  lazymatch goal with
  | |- ex (fun w => ?f = Some w /\ _) =>
      let r := eval vm_compute in f in
      lazymatch r with Some ?v => exists v end
  end;
  split; [vm_compute; reflexivity | ].

Lemma status_never_received_witness :
  status (ui pollingWorld) <> received /\
  getStatusText (statusString (status (ui pollingWorld))) =
    "Waiting for Payment".
Proof.
  destruct (status_never_received Platform.parseFloat Platform.publicKeyError
      Platform.transferError
              pollingWorld pollingWorld_reachable) as [Hnot Hlabel].
  split; [exact Hnot | ].
  destruct Hlabel as [(_ & Htext & _) | [(Hs & _) | (Hs & _) ] ];
    [vm_compute; reflexivity | exact Htext | | ];
    vm_compute in Hs; discriminate.
Defined.

Lemma timeLeft_in_window_witness :
  0 <= timeLeft (ui pollingWorld) <= PAYMENT_WINDOW.
Proof.
  exact (proj1 (timeLeft_in_window Platform.parseFloat Platform.publicKeyError
      Platform.transferError
                  pollingWorld pollingWorld_reachable)).
Defined.

Lemma forwarded_has_confirmed_signature_witness :
  exists w,
    runP initialWorld Scenario.forwardCompleted = Some w /\
    exists signature,
      txSignature (ui w) = Some signature /\
      In (ConfirmTransaction signature) (calls w).
Proof.
  run_exists.
  apply (forwarded_has_confirmed_signature
           Platform.parseFloat Platform.publicKeyError Platform.transferError).
  - apply (reachable_run _ _ _ initialWorld Scenario.forwardCompleted);
      [apply reachable_init | vm_compute; reflexivity].
  - vm_compute; reflexivity.
Defined.

Lemma transfers_justified_witness :
  transferJustified Platform.parseFloat Platform.publicKeyError
    (SendTransaction (publicKey Scenario.wallet) DEFAULT_SELLER_ADDRESS
       (Scenario.paid - FEE_RESERVE)%float).
Proof.
  apply (transfers_justified Platform.parseFloat Platform.publicKeyError
      Platform.transferError
           forwardingWorld).
  - exact forwardingWorld_reachable.
  - vm_compute. right. right. left. reflexivity.
Defined.

Lemma error_shown_when_set_witness :
  exists w,
    runP initialWorld Scenario.forwardAfterNetworkError = Some w /\
    errorShown (ui w) = true.
Proof.
  run_exists.
  apply (error_shown_when_set Platform.parseFloat Platform.publicKeyError
      Platform.transferError).
  - apply (reachable_run _ _ _ initialWorld Scenario.forwardAfterNetworkError);
      [apply reachable_init | vm_compute; reflexivity].
  - vm_compute; discriminate.
Defined.

Lemma validateAmount_accepts_iff_witness :
  validateAmount Platform.parseFloat "0.5" = None.
Proof.
  apply (proj2 (validateAmount_accepts_iff Platform.parseFloat "0.5")).
  split; vm_compute; reflexivity.
Defined.

Lemma start_forgets_previous_session_witness :
  ui (startPaymentFlow Platform.parseFloat Platform.publicKeyError
        Scenario.wallet initialWorld) =
  ui (startPaymentFlow Platform.parseFloat Platform.publicKeyError
        Scenario.wallet
        (withUi resetFlow (Nat.iter 300 (withUi countdownTick) pollingWorld))).
Proof.
  apply (start_forgets_previous_session
           Platform.parseFloat Platform.publicKeyError).
  - split; vm_compute; reflexivity.
  - vm_compute; reflexivity.
  - vm_compute; reflexivity.
  - vm_compute; reflexivity.
Defined.

Lemma payment_completes_witness :
  exists w',
    runP initialWorld
      [ClickStart Scenario.wallet; PollTick;
       GetBalanceDone 0 (Resolved Scenario.paid);
       SendTransactionDone 0 (Resolved "5sig");
       ConfirmTransactionDone 0 (Resolved tt)] = Some w' /\
    status (ui w') = forwarded /\
    txSignature (ui w') = Some "5sig".
Proof.
  destruct (payment_completes Platform.parseFloat Platform.publicKeyError
      Platform.transferError
              initialWorld Scenario.wallet Scenario.paid "5sig")
    as (w' & Hrun & Hstatus & Hsignature & _).
  - apply reachable_init.
  - vm_compute; reflexivity.
  - split; vm_compute; reflexivity.
  - vm_compute; reflexivity.
  - vm_compute; reflexivity.
  - exists w'. auto.
Defined.

Lemma failed_forward_is_retried_witness :
  exists w',
    runP forwardingWorld
      [SendTransactionDone 0 (Rejected "timed out"); PollTick;
       GetBalanceDone 1 (Resolved Scenario.paid)] = Some w' /\
    status (ui w') = forwarding /\
    error (ui w') = Some "Failed to forward payment: timed out".
Proof.
  destruct (failed_forward_is_retried
              Platform.parseFloat Platform.publicKeyError Platform.transferError
              forwardingWorld Scenario.wallet 0%nat defaultClosure
              "timed out" Scenario.paid)
    as (w' & Hrun & Hstatus & Herror & _).
  - exact forwardingWorld_reachable.
  - vm_compute; reflexivity.
  - vm_compute; reflexivity.
  - vm_compute; reflexivity.
  - vm_compute; reflexivity.
  - exists w'. auto.
Defined.

Lemma waiting_without_wallet_is_stuck_witness :
  exists p,
    pageRun Platform.parseFloat Platform.publicKeyError
      Platform.transferError initialPage
      (map FlowEvent Scenario.lateFailureAfterReset) = Some p /\
    (forall e,
       pageStep Platform.parseFloat Platform.publicKeyError
         Platform.transferError p (FlowEvent e) = None) /\
    view (ui (flow p)) = MainContent /\
    forall p',
      pageRun Platform.parseFloat Platform.publicKeyError
        Platform.transferError p
        [ClickCopy; ClipboardDone (Resolved tt); CopiedTimerFires] =
        Some p' ->
      status (ui (flow p')) = waiting /\ tempWallet (ui (flow p')) = None.
Proof.
  run_exists.
  lazymatch goal with
  | |- (forall e, pageStep _ _ _ ?p (FlowEvent e) = None) /\ _ =>
      destruct (waiting_without_wallet_is_stuck
                  Platform.parseFloat Platform.publicKeyError
                  Platform.transferError p)
        as (_ & Hflow & Hview & _ & _ & Hruns)
  end.
  - vm_compute; reflexivity.
  - vm_compute; reflexivity.
  - vm_compute; reflexivity.
  - split; [exact Hflow | ]. split; [exact Hview | ].
    intros p' Hrun.
    destruct (Hruns _ _ Hrun) as (_ & Hwaiting & Hwallet & _). auto.
Defined.

Lemma inputs_change_only_in_setup_witness :
  sellerAddress (ui (checkBalance_start pollingWorld)) =
    DEFAULT_SELLER_ADDRESS /\
  amount (ui (checkBalance_start pollingWorld)) = DEFAULT_AMOUNT.
Proof.
  apply (inputs_change_only_in_setup
           Platform.parseFloat Platform.publicKeyError Platform.transferError
           pollingWorld PollTick (checkBalance_start pollingWorld)).
  - vm_compute; reflexivity.
  - left. vm_compute. discriminate.
Defined.

Lemma copy_does_not_interfere_witness :
  flow (mkPage (withUi (setCopied true) pollingWorld) 0 1) =
    flow (mkPage pollingWorld 1 0) \/
  exists b,
    flow (mkPage (withUi (setCopied true) pollingWorld) 0 1) =
    withUi (setCopied b) (flow (mkPage pollingWorld 1 0)).
Proof.
  refine (proj1 (copy_does_not_interfere
                   Platform.parseFloat Platform.publicKeyError
                   Platform.transferError
                   (mkPage pollingWorld 1 0))
            (ClipboardDone (Resolved tt))
            (mkPage (withUi (setCopied true) pollingWorld) 0 1) _ _).
  - vm_compute; reflexivity.
  - intros flowEvent. discriminate.
Defined.

Lemma copied_has_pending_timer_witness :
  exists p,
    pageRun Platform.parseFloat Platform.publicKeyError
        Platform.transferError initialPage
      [FlowEvent (ClickStart Scenario.wallet); ClickCopy;
       ClipboardDone (Resolved tt)] = Some p /\
    copied (ui (flow p)) = true /\
    (0 < copiedTimers p)%nat.
Proof.
  run_exists. split; [vm_compute; reflexivity | ].
  apply (copied_has_pending_timer
           Platform.parseFloat Platform.publicKeyError Platform.transferError).
  - apply (pageReachable_run _ _ _ initialPage
             [FlowEvent (ClickStart Scenario.wallet); ClickCopy;
              ClipboardDone (Resolved tt)]);
      [apply pageReachable_init | vm_compute; reflexivity].
  - vm_compute; reflexivity.
Defined.

Lemma time_is_shown_as_minutes_and_seconds_witness :
  timeDisplay (timeLeft (ui pollingWorld)) = "5:00".
Proof.
  rewrite (proj1 (time_is_shown_as_minutes_and_seconds
                    Platform.parseFloat Platform.publicKeyError
                    Platform.transferError
                    pollingWorld pollingWorld_reachable)).
  vm_compute; reflexivity.
Defined.

Lemma progress_in_percent_witness :
  num_le (progress (timeLeft (ui pollingWorld))) 100%float = true.
Proof.
  exact (proj1 (proj2 (progress_in_percent
                         Platform.parseFloat Platform.publicKeyError
                         Platform.transferError
                         pollingWorld pollingWorld_reachable))).
Defined.

(** ** The first revision *)

(** [Platform.parseFloat] reads ["0.05"] as [REQUIRED_AMOUNT], so a check of
    the second revision with the seller's address and that amount is a
    check of the first. *)
Lemma fixed_seller_instance_witness :
  checkBalance_gotBalance Platform.parseFloat Platform.publicKeyError
      Platform.transferError 0
    (mkClosure Scenario.wallet SELLER_ADDRESS "0.05")
    (Resolved Scenario.paid) pollingWorld =
  checkBalance_gotBalance_fixed Platform.publicKeyError Platform.transferError
    0 Scenario.wallet
    (Resolved Scenario.paid) pollingWorld.
Proof.
  apply (fixed_seller_instance Platform.parseFloat Platform.publicKeyError
      Platform.transferError
           0%nat (mkClosure Scenario.wallet SELLER_ADDRESS "0.05")
           (Resolved Scenario.paid) pollingWorld Scenario.wallet);
    vm_compute; reflexivity.
Defined.

Lemma status_edges_witness :
  status (ui (withUi countdownTick
                (Nat.iter 299 (withUi countdownTick) startedWorld))) =
    status (ui (Nat.iter 299 (withUi countdownTick) startedWorld)) \/
  CountdownTick = CountdownTick /\
  status (ui (Nat.iter 299 (withUi countdownTick) startedWorld)) = waiting /\
  status (ui (withUi countdownTick
                (Nat.iter 299 (withUi countdownTick) startedWorld))) =
    expired.
Proof.
  destruct (status_edges Platform.parseFloat Platform.publicKeyError
      Platform.transferError
              (Nat.iter 299 (withUi countdownTick) startedWorld)
              CountdownTick
              (withUi countdownTick
                 (Nat.iter 299 (withUi countdownTick) startedWorld)))
    as [Hsame | [(g & He & _) | [Hexpired | Hother ] ] ].
  - vm_compute; reflexivity.
  - left. exact Hsame.
  - discriminate.
  - right. exact Hexpired.
  - destruct Hother as [(id & polled & He & _) | [(id & message & [He | He] & _)
                        | [(id & u & He & _) | (He & _) ] ] ]; discriminate.
Defined.
